(** * country-flags-util: flag emoji, flag image URL and select markup

    A shallow embedding of [utils.js] ([getFlagEmoji], [getFlagImageUrl],
    [getCountrySelectHTML]) and of [index.js] ([getAllCountries],
    [getCountrySelect]), with the fragment of the JavaScript semantics these
    functions rely on, followed by the properties of the specification. *)

From Stdlib Require Import ZArith List String Ascii Lia Bool Decimal DecimalZ.
From stdpp Require Import base list.

Local Open Scope Z_scope.

(** ** JavaScript strings

    A JavaScript string is a sequence of UTF-16 code units; [length] counts
    code units.  A code unit is a [Z] in [0, 65535]; [wf_jsstring] is that
    range invariant, which every string of a running program satisfies. *)

Definition jsstring := list Z.

Definition wf_unit (u : Z) : bool := (0 <=? u) && (u <? 65536).

Definition wf_jsstring (s : jsstring) : bool := forallb wf_unit s.

(** The code units of an ASCII literal of the source text. *)
Definition lit (s : string) : jsstring :=
  map (fun c => Z.of_N (N_of_ascii c)) (list_ascii_of_string s).
Arguments lit s%_string.

(** The double quote and the line feed, which the templates of [utils.js]
    contain. *)
Definition dquote : jsstring := [34].
Definition newline : jsstring := [10].

Definition is_ascii (s : jsstring) : bool :=
  forallb (fun u => (0 <=? u) && (u <? 128)) s.

(** ** Values, exceptions and results

    The values the functions may receive: primitives, arrays and plain
    objects (own data properties with string keys, prototype
    [Object.prototype]).  [VNum n] is the number [n], for the integers that
    a JavaScript number holds exactly and prints in plain decimal digits
    (the safe integers, up to 2^53 - 1 in absolute value); fractions, [NaN]
    and the infinities are not represented.  There are no functions,
    symbols or accessors among the values. *)

#[warnings="-register-all"]
Inductive value : Type :=
| VUndefined
| VNull
| VBool (b : bool)
| VNum (n : Z)
| VStr (s : jsstring)
| VArr (elems : list value)
| VObj (props : list (jsstring * value)).

Inductive exn : Type :=
| Error (message : jsstring)
| TypeError
| RangeError.

Inductive result (A : Type) : Type :=
| Ok (a : A)
| Throw (e : exn).
Arguments Ok {A} a.
Arguments Throw {A} e.

Definition bind {A B : Type} (r : result A) (k : A -> result B) : result B :=
  match r with
  | Ok a => k a
  | Throw e => Throw e
  end.

Notation "'let!' x ':=' e 'in' k" := (bind e (fun x => k))
  (at level 10, x name, e at level 200, k at level 200).

(** ** Built-in operations *)

(** [ToBoolean], as used by [!code]. *)
Definition ToBoolean (v : value) : bool :=
  match v with
  | VUndefined | VNull => false
  | VBool b => b
  | VNum n => negb (n =? 0)
  | VStr s => negb (Nat.eqb (length s) 0)
  | VArr _ | VObj _ => true
  end.

Definition typeof (v : value) : jsstring :=
  match v with
  | VUndefined => lit "undefined"
  | VNull => lit "object"
  | VBool _ => lit "boolean"
  | VNum _ => lit "number"
  | VStr _ => lit "string"
  | VArr _ | VObj _ => lit "object"
  end.

Definition Array_isArray (v : value) : bool :=
  match v with
  | VArr _ => true
  | _ => false
  end.

(** Own property lookup; the first binding of a key is the property. *)
Fixpoint own_prop (key : jsstring) (props : list (jsstring * value)) : option value :=
  match props with
  | [] => None
  | (k, v) :: rest => if bool_decide (k = key) then Some v else own_prop key rest
  end.

(** [v.length]: reading a property of [undefined] or [null] is a
    [TypeError]; strings and arrays have their length; other primitives have
    no such property. *)
Definition get_length (v : value) : result value :=
  match v with
  | VUndefined | VNull => Throw TypeError
  | VStr s => Ok (VNum (Z.of_nat (length s)))
  | VArr xs => Ok (VNum (Z.of_nat (length xs)))
  | VObj ps => Ok (default VUndefined (own_prop (lit "length") ps))
  | VBool _ | VNum _ => Ok VUndefined
  end.

(** [v[key]] for a key that no built-in prototype defines ([code], [name]
    and [flag] are such keys), as object destructuring reads it. *)
Definition get_field (v : value) (key : jsstring) : result value :=
  match v with
  | VUndefined | VNull => Throw TypeError
  | VObj ps => Ok (default VUndefined (own_prop key ps))
  | VBool _ | VNum _ | VStr _ | VArr _ => Ok VUndefined
  end.

(** [v !== n] for a number literal [n]. *)
Definition strict_neq_num (v : value) (n : Z) : bool :=
  match v with
  | VNum m => negb (m =? n)
  | _ => true
  end.

(** [v === s] for a string [s]: strict equality, no conversion of either
    side. *)
Definition strict_eq_str (v : value) (s : jsstring) : bool :=
  match v with
  | VStr t => bool_decide (t = s)
  | _ => false
  end.

(** The safe integers, [Number.isSafeInteger]: the integers up to
    2^53 - 1 in absolute value.  Each of them is a number that JavaScript
    holds exactly and prints in plain decimal digits. *)
Definition safe_integer (n : Z) : bool :=
  (-9007199254740991 <=? n) && (n <=? 9007199254740991).

(** The code units of a string of decimal digits. *)
Fixpoint uint_units (d : Decimal.uint) : jsstring :=
  match d with
  | Nil => []
  | D0 r => 48 :: uint_units r
  | D1 r => 49 :: uint_units r
  | D2 r => 50 :: uint_units r
  | D3 r => 51 :: uint_units r
  | D4 r => 52 :: uint_units r
  | D5 r => 53 :: uint_units r
  | D6 r => 54 :: uint_units r
  | D7 r => 55 :: uint_units r
  | D8 r => 56 :: uint_units r
  | D9 r => 57 :: uint_units r
  end.

(** [Number::toString] on the safe integers: the decimal digits, with a
    leading minus sign when negative.  [VNum n] stands for a number of
    JavaScript only when [n] is such an integer (a further integer need not
    be a number that a double holds, and from 10^21 on JavaScript prints an
    exponent), so a property that shows the digits of a width assumes
    [safe_integer] of it. *)
Definition Number_toString (n : Z) : jsstring :=
  match Z.to_int n with
  | Decimal.Pos d => uint_units d
  | Decimal.Neg d => 45 :: uint_units d
  end.

(** [Array.prototype.join] on an array of strings. *)
Fixpoint join (sep : jsstring) (parts : list jsstring) : jsstring :=
  match parts with
  | [] => []
  | [p] => p
  | p :: rest => p ++ sep ++ join sep rest
  end.

(** [ToString], the conversion a template literal applies to each
    interpolated value.  An array converts through [join(",")], where
    [undefined] and [null] elements give the empty string.  A plain object
    converts through [Object.prototype.toString]; when it has an own
    [toString] property (never callable here) no conversion is left and a
    [TypeError] is thrown. *)
Fixpoint ToString (v : value) : result jsstring :=
  match v with
  | VUndefined => Ok (lit "undefined")
  | VNull => Ok (lit "null")
  | VBool true => Ok (lit "true")
  | VBool false => Ok (lit "false")
  | VNum n => Ok (Number_toString n)
  | VStr s => Ok s
  | VArr xs =>
      let! parts :=
        (fix elems (l : list value) : result (list jsstring) :=
           match l with
           | [] => Ok []
           | x :: rest =>
               let! p := match x with
                         | VUndefined | VNull => Ok []
                         | _ => ToString x
                         end in
               let! ps := elems rest in
               Ok (p :: ps)
           end) xs in
      Ok (join (lit ",") parts)
  | VObj ps =>
      match own_prop (lit "toString") ps with
      | Some _ => Throw TypeError
      | None => Ok (lit "[object Object]")
      end
  end.

(** [Array.prototype.map] with a callback that may throw: elements are
    visited in order and the first exception ends the traversal. *)
Fixpoint array_map {A B : Type} (f : A -> result B) (xs : list A) : result (list B) :=
  match xs with
  | [] => Ok []
  | x :: rest =>
      let! y := f x in
      let! ys := array_map f rest in
      Ok (y :: ys)
  end.

(** [s.split('')]: one single-unit string per code unit. *)
Definition split_units (s : jsstring) : list jsstring := map (fun u => [u]) s.

(** [s.charCodeAt()]: the code unit at index 0, [None] standing for [NaN]
    when there is none. *)
Definition charCodeAt (s : jsstring) : option Z := head s.

(** [UTF16EncodeCodePoint]. *)
Definition utf16 (cp : Z) : jsstring :=
  if cp <=? 65535 then [cp]
  else [55296 + (cp - 65536) / 1024; 56320 + (cp - 65536) mod 1024].

(** [String.fromCodePoint(...codePoints)]: a [RangeError] for an argument
    that is [NaN] or outside [0, 0x10FFFF]. *)
Fixpoint fromCodePoint (cps : list (option Z)) : result jsstring :=
  match cps with
  | [] => Ok []
  | None :: _ => Throw RangeError
  | Some cp :: rest =>
      if (cp <? 0) || (1114111 <? cp) then Throw RangeError
      else
        let! s := fromCodePoint rest in
        Ok (utf16 cp ++ s)
  end.

(** *** Case conversion

    [String.prototype.toUpperCase] and [toLowerCase] apply the Unicode case
    mappings, a table of the platform and not of this repository.  The
    functions of [utils.js] take them through the interface [StringCase];
    [StringCaseSpec] is what the properties below rely on: the result is a
    string (code units in range), and on ASCII strings the conversion is the
    letter-wise one. *)

Class StringCase : Type := {
  toUpperCase : jsstring -> jsstring;
  toLowerCase : jsstring -> jsstring
}.

Definition upper_ascii (u : Z) : Z :=
  if (97 <=? u) && (u <=? 122) then u - 32 else u.

Definition lower_ascii (u : Z) : Z :=
  if (65 <=? u) && (u <=? 90) then u + 32 else u.

Class StringCaseSpec (sc : StringCase) : Prop := {
  toUpperCase_wf :
    forall s, wf_jsstring s = true -> wf_jsstring (toUpperCase s) = true;
  toUpperCase_ascii :
    forall s, is_ascii s = true -> toUpperCase s = map upper_ascii s;
  toLowerCase_ascii :
    forall s, is_ascii s = true -> toLowerCase s = map lower_ascii s
}.

(** The case mappings of the Basic Latin and Latin-1 Supplement blocks
    (U+0000 to U+00FF), with the two upper-case mappings that leave the
    block (U+00B5, U+00FF) and the one that lengthens the string (U+00DF
    gives "SS").  This instance is exact on strings of these blocks, where
    the examples below use it; it leaves a code unit from U+0100 on as it
    is. *)
Definition upper_unit (u : Z) : list Z :=
  if (97 <=? u) && (u <=? 122) then [u - 32]
  else if u =? 181 then [924]
  else if u =? 223 then [83; 83]
  else if (224 <=? u) && (u <=? 254) && negb (u =? 247) then [u - 32]
  else if u =? 255 then [376]
  else [u].

Definition lower_unit (u : Z) : list Z :=
  if (65 <=? u) && (u <=? 90) then [u + 32]
  else if (192 <=? u) && (u <=? 222) && negb (u =? 215) then [u + 32]
  else [u].

#[global] Instance latin1_case : StringCase := {|
  toUpperCase := flat_map upper_unit;
  toLowerCase := flat_map lower_unit
|}.

(** ** utils.js *)

Definition getFlagEmoji {sc : StringCase} (code : value) : result jsstring :=
  if negb (ToBoolean code) then Ok []
  else if negb (bool_decide (typeof code = lit "string")) then Ok []
  else
    let! len := get_length code in
    if strict_neq_num len 2 then Ok []
    else
      match code with
      | VStr s =>
          let codePoints :=
            map (fun char => option_map (Z.add 127397) (charCodeAt char))
                (split_units (toUpperCase s)) in
          fromCodePoint codePoints
      | _ => Throw TypeError
      end.

(** A parameter default: [undefined] (also an omitted argument or a
    missing property) takes the default. *)
Definition or_default (v : value) (d : value) : value :=
  match v with
  | VUndefined => d
  | _ => v
  end.

Definition getFlagImageUrl {sc : StringCase} (code : value) (width : value)
    : result jsstring :=
  let width := or_default width (VNum 40) in
  if negb (ToBoolean code) then Ok []
  else if negb (bool_decide (typeof code = lit "string")) then Ok []
  else
    let! len := get_length code in
    if strict_neq_num len 2 then Ok []
    else
      let! w := ToString width in
      match code with
      | VStr s =>
          Ok (lit "https://flagcdn.com/w" ++ w ++ lit "/" ++ toLowerCase s ++ lit ".png")
      | _ => Throw TypeError
      end.

(** The options object of [getCountrySelectHTML], with the types its
    documentation declares; [None] is a property that is absent (or
    [undefined]), which takes the default of the destructuring pattern. *)
Record options : Type := mkOptions {
  opt_id : option jsstring;
  opt_name : option jsstring;
  opt_className : option jsstring;
  opt_selectedCode : option jsstring;
  opt_useImageFlags : option bool;
  opt_flagWidth : option Z
}.

(** The object literal [{}]. *)
Definition empty_options : options := mkOptions None None None None None None.

(** The callback of [countries.map] in [getCountrySelectHTML]: the markup
    of one entry. *)
Definition optionHTML {sc : StringCase} (selectedCode : jsstring)
    (useImageFlags : bool) (flagWidth : Z) (entry : value) : result jsstring :=
  let! code := get_field entry (lit "code") in
  let! name := get_field entry (lit "name") in
  let! flag := get_field entry (lit "flag") in
  let selected := if strict_eq_str code selectedCode then lit " selected" else [] in
  let! flagDisplay :=
    if useImageFlags then
      let! flagUrl := getFlagImageUrl code (VNum flagWidth) in
      let! code_s := ToString code in
      Ok (lit "<img src=" ++ dquote ++ flagUrl ++ dquote
          ++ lit " alt=" ++ dquote ++ code_s ++ dquote
          ++ lit " style=" ++ dquote
          ++ lit "vertical-align: middle; margin-right: 5px; width: "
          ++ Number_toString flagWidth ++ lit "px;" ++ dquote ++ lit ">")
    else
      let! flag_s := ToString flag in
      Ok (flag_s ++ lit " ") in
  let! code_s := ToString code in
  let! name_s := ToString name in
  Ok (lit "<option value=" ++ dquote ++ code_s ++ dquote ++ selected ++ lit ">"
      ++ flagDisplay ++ name_s ++ lit "</option>").

(** The final template of [getCountrySelectHTML]. *)
Definition selectHTML (id name className optionsHTML : jsstring) : jsstring :=
  lit "<select id=" ++ dquote ++ id ++ dquote
  ++ lit " name=" ++ dquote ++ name ++ dquote
  ++ lit " class=" ++ dquote ++ className ++ dquote ++ lit ">"
  ++ newline ++ lit "  " ++ optionsHTML ++ newline ++ lit "</select>".

(** [opts] is [None] when the argument is omitted (or [undefined]). *)
Definition getCountrySelectHTML {sc : StringCase} (countries : value)
    (opts : option options) : result jsstring :=
  let opts := default empty_options opts in
  if negb (Array_isArray countries) then
    Throw (Error (lit "Countries must be an array"))
  else
    let id := default (lit "country-select") (opt_id opts) in
    let name := default (lit "country") (opt_name opts) in
    let className := default [] (opt_className opts) in
    let selectedCode := default [] (opt_selectedCode opts) in
    let useImageFlags := default true (opt_useImageFlags opts) in
    let flagWidth := default 40 (opt_flagWidth opts) in
    match countries with
    | VArr entries =>
        let! parts := array_map (optionHTML selectedCode useImageFlags flagWidth) entries in
        let optionsHTML := join (newline ++ lit "  ") parts in
        Ok (selectHTML id name className optionsHTML)
    | _ => Throw TypeError
    end.

(** ** index.js *)

(** A row of the country table of [countries.js]. *)
Record country : Type := mkCountry {
  country_name : jsstring;
  country_code : jsstring
}.

(** The object literal [{ name, code, flag }]. *)
Definition country_object (name code flag : jsstring) : value :=
  VObj [(lit "name", VStr name); (lit "code", VStr code); (lit "flag", VStr flag)].

Section Index.

Context {sc : StringCase}.

(** The table that [require('./countries')] yields; the file is not among
    the sources, so the table is a parameter. *)
Variable countries : list country.

Definition getAllCountries : result value :=
  let! entries :=
    array_map (fun country =>
                 let! flag := getFlagEmoji (VStr (country_code country)) in
                 Ok (country_object (country_name country) (country_code country) flag))
              countries in
  Ok (VArr entries).

Definition getCountrySelect (opts : option options) : result jsstring :=
  let opts := default empty_options opts in
  let! all := getAllCountries in
  getCountrySelectHTML all (Some opts).

End Index.

(** ** Vocabulary of the properties *)

(** An entry of the documented element type of [countries],
    [{name: string, code: string, flag: string}]. *)
Record entry : Type := mkEntry {
  entry_name : jsstring;
  entry_code : jsstring;
  entry_flag : jsstring
}.

Definition entry_object (e : entry) : value :=
  country_object (entry_name e) (entry_code e) (entry_flag e).

(** The effective options, after the defaults of the destructuring. *)
Definition id_of (o : options) : jsstring := default (lit "country-select") (opt_id o).
Definition name_of (o : options) : jsstring := default (lit "country") (opt_name o).
Definition className_of (o : options) : jsstring := default [] (opt_className o).
Definition selectedCode_of (o : options) : jsstring := default [] (opt_selectedCode o).
Definition useImageFlags_of (o : options) : bool := default true (opt_useImageFlags o).
Definition flagWidth_of (o : options) : Z := default 40 (opt_flagWidth o).

(** An option fragment carries the [selected] attribute when its opening
    tag is [<option value="CODE" selected>]: the attribute stands right
    after the value attribute, where the template puts it. *)
Definition carries_selected (code : jsstring) (fragment : jsstring) : Prop :=
  (lit "<option value=" ++ dquote ++ code ++ dquote ++ lit " selected>")
    `prefix_of` fragment.

(** Substring test, as [String.prototype.includes]. *)
Fixpoint starts_with (p s : jsstring) : bool :=
  match p, s with
  | [], _ => true
  | _ :: _, [] => false
  | a :: p', b :: s' => (a =? b) && starts_with p' s'
  end.

Fixpoint includes (needle hay : jsstring) : bool :=
  starts_with needle hay
  || match hay with
     | [] => false
     | _ :: rest => includes needle rest
     end.

(** The entries on which the callback of [countries.map] cannot throw:
    anything but [undefined] and [null] whose [code], [name] and [flag],
    where present, are primitives (strings in particular). *)
Definition is_primitive (v : value) : bool :=
  match v with
  | VArr _ | VObj _ => false
  | _ => true
  end.

Definition field_or_undefined (v : value) (key : jsstring) : value :=
  match v with
  | VObj ps => default VUndefined (own_prop key ps)
  | _ => VUndefined
  end.

Definition renderable_entry (v : value) : bool :=
  match v with
  | VUndefined | VNull => false
  | _ =>
      is_primitive (field_or_undefined v (lit "code"))
      && is_primitive (field_or_undefined v (lit "name"))
      && is_primitive (field_or_undefined v (lit "flag"))
  end.

(** ** frameworks/angular.js

    Objects as lists of own properties in creation order, each key once. *)

(** [o[key] = v]: an existing property keeps its place. *)
Fixpoint obj_set (key : jsstring) (v : value) (o : list (jsstring * value))
    : list (jsstring * value) :=
  match o with
  | [] => [(key, v)]
  | (k, x) :: rest =>
      if bool_decide (k = key) then (k, v) :: rest
      else (k, x) :: obj_set key v rest
  end.

(** The spread [{ ...target, ...source }] into an object under
    construction. *)
Definition obj_spread (target source : list (jsstring * value))
    : list (jsstring * value) :=
  fold_left (fun o kv => obj_set (fst kv) (snd kv) o) source target.

(** The number that a string of decimal digits writes. *)
Fixpoint digits_value (acc : Z) (s : jsstring) : option Z :=
  match s with
  | [] => Some acc
  | u :: rest =>
      if (48 <=? u) && (u <=? 57) then digits_value (10 * acc + (u - 48)) rest
      else None
  end.

(** An array index is the canonical decimal string of an integer from 0 to
    2^32 - 2.  Properties with such keys are listed first, in ascending
    order, before the other keys in creation order. *)
Definition array_index (key : jsstring) : option Z :=
  match key with
  | [] => None
  | _ =>
      match digits_value 0 key with
      | Some n =>
          if (n <=? 4294967294) && bool_decide (Number_toString n = key)
          then Some n else None
      | None => None
      end
  end.

Fixpoint insert_index (n : Z) (kv : jsstring * value)
    (l : list (Z * (jsstring * value))) : list (Z * (jsstring * value)) :=
  match l with
  | [] => [(n, kv)]
  | (m, x) :: rest =>
      if n <? m then (n, kv) :: l else (m, x) :: insert_index n kv rest
  end.

(** [Object.entries]. *)
Definition Object_entries (o : list (jsstring * value)) : list (jsstring * value) :=
  map snd
    (fold_right (fun kv acc =>
                   match array_index (fst kv) with
                   | Some n => insert_index n kv acc
                   | None => acc
                   end) [] o)
  ++ List.filter (fun kv => match array_index (fst kv) with
                            | Some _ => false
                            | None => true
                            end) o.

(** [v !== ''] *)
Definition strict_neq_empty (v : value) : bool :=
  match v with
  | VStr [] => false
  | _ => true
  end.

(** [code.toLowerCase()] on any value: only a string has the method. *)
Definition call_toLowerCase {sc : StringCase} (v : value) : result jsstring :=
  match v with
  | VStr s => Ok (toLowerCase s)
  | _ => Throw TypeError
  end.

(** The props of [getAngularCountrySelect]: the six destructured
    properties with their documented types ([None] for an absent one), and
    [ap_otherProps], the rest of the own properties of the object. *)
Record angular_props : Type := mkAngularProps {
  ap_id : option jsstring;
  ap_name : option jsstring;
  ap_className : option jsstring;
  ap_ngModel : option jsstring;
  ap_useImageFlags : option bool;
  ap_flagWidth : option Z;
  ap_otherProps : list (jsstring * value)
}.

Definition empty_angular_props : angular_props :=
  mkAngularProps None None None None None None [].

(** The attributes of the select element: the entries of
    [{ id, name, class: className, ...otherProps }] that are not the empty
    string, each as [key="value"], joined by a space. *)
Definition angularPropsString (id name className : jsstring)
    (otherProps : list (jsstring * value)) : result jsstring :=
  let entries :=
    Object_entries
      (obj_spread [(lit "id", VStr id); (lit "name", VStr name);
                   (lit "class", VStr className)] otherProps) in
  let kept := List.filter (fun kv => strict_neq_empty (snd kv)) entries in
  let! attrs :=
    array_map (fun kv =>
                 let! value_s := ToString (snd kv) in
                 Ok (fst kv ++ lit "=" ++ dquote ++ value_s ++ dquote))
              kept in
  Ok (join (lit " ") attrs).

(** The text of an attribute as the select element gets it: nothing for
    the empty string. *)
Definition attribute (key value : jsstring) : list jsstring :=
  match value with
  | [] => []
  | _ => [key ++ lit "=" ++ dquote ++ value ++ dquote]
  end.

(** The callback of [countries.map] in [getAngularCountrySelect]. *)
Definition angularOption {sc : StringCase} (useImageFlags : bool)
    (flagWidth : Z) (entry : value) : result jsstring :=
  let! code := get_field entry (lit "code") in
  let! name := get_field entry (lit "name") in
  let! flag := get_field entry (lit "flag") in
  if useImageFlags then
    let! code_s := ToString code in
    let! lower := call_toLowerCase code in
    let! name_s := ToString name in
    Ok (lit "  <option [value]=" ++ dquote ++ code_s ++ dquote ++ lit ">" ++ newline
        ++ lit "    <img [src]=" ++ dquote ++ lit "'https://flagcdn.com/w"
        ++ Number_toString flagWidth ++ lit "/" ++ lower ++ lit ".png'" ++ dquote
        ++ lit " " ++ newline
        ++ lit "         [alt]=" ++ dquote ++ lit "'" ++ code_s ++ lit "'" ++ dquote
        ++ lit " " ++ newline
        ++ lit "         style=" ++ dquote ++ lit "margin-right: 5px; width: "
        ++ Number_toString flagWidth ++ lit "px; vertical-align: middle;" ++ dquote
        ++ lit " /> " ++ name_s ++ newline
        ++ lit "  </option>")
  else
    let! code_s := ToString code in
    let! flag_s := ToString flag in
    let! name_s := ToString name in
    Ok (lit "  <option [value]=" ++ dquote ++ code_s ++ dquote ++ lit ">"
        ++ flag_s ++ lit " " ++ name_s ++ lit "</option>").

Definition getAngularCountrySelect {sc : StringCase} (countries : value)
    (props : option angular_props) : result jsstring :=
  let props := default empty_angular_props props in
  if negb (Array_isArray countries) then
    Throw (Error (lit "Countries must be an array"))
  else
    let id := default (lit "country-select") (ap_id props) in
    let name := default (lit "country") (ap_name props) in
    let className := default [] (ap_className props) in
    let ngModel := default (lit "selectedCountry") (ap_ngModel props) in
    let useImageFlags := default true (ap_useImageFlags props) in
    let flagWidth := default 40 (ap_flagWidth props) in
    let otherProps := ap_otherProps props in
    let! propsString := angularPropsString id name className otherProps in
    match countries with
    | VArr entries =>
        let! parts := array_map (angularOption useImageFlags flagWidth) entries in
        let optionsCode := join newline parts in
        Ok (lit "<select [(ngModel)]=" ++ dquote ++ ngModel ++ dquote ++ lit " "
            ++ propsString ++ lit ">" ++ newline
            ++ optionsCode ++ newline ++ lit "</select>")
    | _ => Throw TypeError
    end.

(** ** Properties of the built-in operations *)

Lemma typeof_string (v : value) :
  bool_decide (typeof v = lit "string") = match v with VStr _ => true | _ => false end.
Proof. destruct v; reflexivity. Qed.

Lemma bind_Throw_inv {A B : Type} (r : result A) (k : A -> result B) (e : exn) :
  bind r k = Throw e -> r = Throw e \/ exists a, r = Ok a /\ k a = Throw e.
Proof.
  destruct r as [a|e']; simpl.
  - intros H. right. eauto.
  - intros [= <-]. left. reflexivity.
Qed.

Lemma wf_unit_range (u : Z) : wf_unit u = true <-> 0 <= u < 65536.
Proof. unfold wf_unit. rewrite andb_true_iff, Z.leb_le, Z.ltb_lt. tauto. Qed.

Lemma wf_jsstring_Forall (s : jsstring) :
  wf_jsstring s = true <-> Forall (fun u => 0 <= u < 65536) s.
Proof.
  unfold wf_jsstring. rewrite forallb_forall, Forall_forall.
  split; intros H u Hu.
  - apply wf_unit_range, H, list_elem_of_In, Hu.
  - apply wf_unit_range, H, list_elem_of_In, Hu.
Qed.

(** No [RangeError] on code points within the Unicode range: the result is
    the concatenation of their UTF-16 encodings. *)
Lemma fromCodePoint_in_range (cps : list Z) :
  Forall (fun cp => 0 <= cp <= 1114111) cps ->
  fromCodePoint (map Some cps) = Ok (flat_map utf16 cps).
Proof.
  induction 1 as [|cp cps Hcp Hcps IH]; simpl; [reflexivity|].
  destruct (Z.ltb_spec cp 0); [lia|].
  destruct (Z.ltb_spec 1114111 cp); [lia|].
  simpl. rewrite IH. reflexivity.
Qed.

(** A code point gives one or two code units. *)
Lemma fromCodePoint_length_le (cps : list (option Z)) (s : jsstring) :
  fromCodePoint cps = Ok s -> (length s <= 2 * length cps)%nat.
Proof.
  revert s. induction cps as [|[cp|] cps IH]; simpl; intros s H.
  - injection H as <-. simpl. lia.
  - destruct ((cp <? 0) || (1114111 <? cp)); [discriminate|].
    destruct (fromCodePoint cps) as [t|e]; simpl in H; [|discriminate].
    injection H as <-. specialize (IH t eq_refl).
    rewrite length_app. unfold utf16. destruct (cp <=? 65535); simpl; lia.
  - discriminate.
Qed.

(** The digits of a number are those of the number itself: two integers
    with the same decimal string are equal, so the conversion neither clamps
    nor rounds. *)
Lemma uint_units_inj (d d' : Decimal.uint) :
  uint_units d = uint_units d' -> d = d'.
Proof.
  revert d'. induction d; intros [] H; simpl in H;
    try discriminate H; try reflexivity;
    injection H as H; f_equal; auto.
Qed.

Lemma uint_units_digits (d : Decimal.uint) :
  Forall (fun u => 48 <= u <= 57) (uint_units d).
Proof. induction d; simpl; constructor; auto; lia. Qed.

Lemma Number_toString_inj (n m : Z) :
  Number_toString n = Number_toString m -> n = m.
Proof.
  unfold Number_toString. intros H. apply DecimalZ.to_int_inj.
  destruct (Z.to_int n) as [d|d], (Z.to_int m) as [d'|d'].
  - f_equal. apply uint_units_inj, H.
  - exfalso. pose proof (uint_units_digits d) as Hd. rewrite H in Hd.
    apply Forall_cons in Hd as [Hd _]. lia.
  - exfalso. pose proof (uint_units_digits d') as Hd. rewrite <- H in Hd.
    apply Forall_cons in Hd as [Hd _]. lia.
  - f_equal. injection H as H. apply uint_units_inj, H.
Qed.

(** Induction on values that reaches the elements of arrays. *)
Lemma value_array_ind (P : value -> Prop) :
  P VUndefined -> P VNull -> (forall b, P (VBool b)) -> (forall n, P (VNum n)) ->
  (forall s, P (VStr s)) ->
  (forall xs, Forall P xs -> P (VArr xs)) ->
  (forall ps, P (VObj ps)) ->
  forall v, P v.
Proof.
  intros Hu Hn Hb Hz Hs Ha Ho.
  refine (fix IH (v : value) : P v :=
            match v with
            | VUndefined => Hu
            | VNull => Hn
            | VBool b => Hb b
            | VNum n => Hz n
            | VStr s => Hs s
            | VArr xs =>
                Ha xs ((fix all (l : list value) : Forall P l :=
                          match l with
                          | [] => List.Forall_nil P
                          | x :: rest => List.Forall_cons P x rest (IH x) (all rest)
                          end) xs)
            | VObj ps => Ho ps
            end).
Qed.

Lemma ToString_primitive (v : value) :
  is_primitive v = true -> exists s, ToString v = Ok s.
Proof.
  destruct v as [| |[|]|n|s|xs|ps]; simpl; intros H; try discriminate; eauto.
Qed.

(** The only exception of a string conversion is the [TypeError]. *)
Lemma ToString_throws_TypeError (v : value) (e : exn) :
  ToString v = Throw e -> e = TypeError.
Proof.
  revert e. induction v as [| |[|]|n|s|xs IH|ps] using value_array_ind;
    intros e; simpl; try discriminate.
  - intros H. apply bind_Throw_inv in H as [H | (parts & _ & H)]; [|discriminate].
    revert e H. induction IH as [|x xs Hx _ IHxs]; intros e H; [discriminate|].
    simpl in H.
    apply bind_Throw_inv in H as [H | (p & _ & H)].
    + destruct x; try discriminate H; exact (Hx _ H).
    + apply bind_Throw_inv in H as [H | (q & _ & H)]; [eauto | discriminate].
  - destruct (own_prop _ ps); [intros [= <-]; reflexivity | discriminate].
Qed.

Lemma get_field_throws_TypeError (v : value) (key : jsstring) (e : exn) :
  get_field v key = Throw e -> e = TypeError.
Proof. destruct v; simpl; congruence. Qed.

Lemma get_field_defined (v : value) (key : jsstring) :
  v <> VUndefined -> v <> VNull ->
  get_field v key = Ok (field_or_undefined v key).
Proof. destruct v; simpl; congruence. Qed.

Lemma get_field_entry (e : entry) :
  get_field (entry_object e) (lit "code") = Ok (VStr (entry_code e))
  /\ get_field (entry_object e) (lit "name") = Ok (VStr (entry_name e))
  /\ get_field (entry_object e) (lit "flag") = Ok (VStr (entry_flag e)).
Proof. repeat split; reflexivity. Qed.

Lemma array_map_throws_TypeError {A B : Type} (f : A -> result B) (xs : list A)
    (e : exn) :
  (forall x e', f x = Throw e' -> e' = TypeError) ->
  array_map f xs = Throw e -> e = TypeError.
Proof.
  intros Hf. induction xs as [|x xs IH]; simpl; [discriminate|].
  intros H. apply bind_Throw_inv in H as [H | (y & _ & H)]; [eauto|].
  apply bind_Throw_inv in H as [H | (ys & _ & H)]; [eauto | discriminate].
Qed.

Lemma array_map_total {A B : Type} (f : A -> result B) (xs : list A) :
  Forall (fun x => exists y, f x = Ok y) xs -> exists ys, array_map f xs = Ok ys.
Proof.
  induction 1 as [|x xs [y Hy] _ [ys Hys]]; simpl; [eauto|].
  rewrite Hy, Hys. simpl. eauto.
Qed.

(** The two opening tags of an option differ right after the value
    attribute, whatever the code is. *)
Lemma carries_selected_iff (code sel body : jsstring) :
  carries_selected code
    (lit "<option value=" ++ dquote ++ code ++ dquote
     ++ (if bool_decide (code = sel) then lit " selected" else [])
     ++ lit ">" ++ body)
  <-> code = sel.
Proof.
  unfold carries_selected. split.
  - intros H. destruct (bool_decide_reflect (code = sel)) as [E|E]; [exact E|].
    exfalso.
    do 4 apply prefix_app_inv in H.
    destruct H as [k H]. discriminate H.
  - intros ->. rewrite bool_decide_true by reflexivity.
    do 4 apply prefix_app. exists body. reflexivity.
Qed.

(** *** The Latin-1 case conversion meets the interface *)

Lemma upper_unit_range (u : Z) :
  0 <= u < 65536 -> Forall (fun x => 0 <= x < 65536) (upper_unit u).
Proof.
  intros Hu. unfold upper_unit.
  repeat match goal with
         | |- context [if ?b then _ else _] => destruct b eqn:?
         end;
    repeat constructor; lia.
Qed.

Lemma upper_unit_ascii (u : Z) :
  0 <= u < 128 -> upper_unit u = [upper_ascii u].
Proof.
  intros Hu. unfold upper_unit, upper_ascii.
  destruct ((97 <=? u) && (u <=? 122)); [reflexivity|].
  destruct (Z.eqb_spec u 181); [lia|].
  destruct (Z.eqb_spec u 223); [lia|].
  destruct (Z.leb_spec 224 u); [lia|]. simpl.
  destruct (Z.eqb_spec u 255); [lia|]. reflexivity.
Qed.

Lemma lower_unit_ascii (u : Z) :
  0 <= u < 128 -> lower_unit u = [lower_ascii u].
Proof.
  intros Hu. unfold lower_unit, lower_ascii.
  destruct ((65 <=? u) && (u <=? 90)); [reflexivity|].
  destruct (Z.leb_spec 192 u); [lia|]. reflexivity.
Qed.

Lemma flat_map_ascii (f : Z -> list Z) (g : Z -> Z) (s : jsstring) :
  (forall u, 0 <= u < 128 -> f u = [g u]) ->
  is_ascii s = true -> flat_map f s = map g s.
Proof.
  intros Hf. unfold is_ascii. induction s as [|u s IH]; simpl; [reflexivity|].
  rewrite andb_true_iff. intros [Hu Hs].
  apply andb_true_iff in Hu as [H0 H1].
  apply Z.leb_le in H0. apply Z.ltb_lt in H1.
  rewrite Hf by lia. rewrite IH by exact Hs. reflexivity.
Qed.

Lemma latin1_case_spec : StringCaseSpec latin1_case.
Proof.
  split.
  - intros s Hs. apply wf_jsstring_Forall. apply wf_jsstring_Forall in Hs.
    simpl. induction Hs as [|u s Hu Hs IH]; simpl; [constructor|].
    apply Forall_app. split; [apply upper_unit_range, Hu | exact IH].
  - intros s Hs. simpl. apply flat_map_ascii; [apply upper_unit_ascii | exact Hs].
  - intros s Hs. simpl. apply flat_map_ascii; [apply lower_unit_ascii | exact Hs].
Qed.

Section Properties.

Context {sc : StringCase} {sc_spec : StringCaseSpec sc}.

(** ** Properties of [getFlagEmoji] and [getFlagImageUrl] *)

(** The guard of both functions lets exactly the 2-unit strings through. *)
Lemma getFlagEmoji_rejects (v : value) :
  (forall s, v = VStr s -> length s <> 2%nat) -> getFlagEmoji v = Ok [].
Proof.
  intros H. unfold getFlagEmoji. rewrite typeof_string.
  destruct v as [| |b|n|s|xs|ps]; try reflexivity.
  - destruct b; reflexivity.
  - cbn [ToBoolean]. destruct (negb (n =? 0)); reflexivity.
  - specialize (H s eq_refl).
    destruct s as [|a s]; [reflexivity|].
    change (ToBoolean (VStr (a :: s))) with true.
    cbn [negb get_length bind strict_neq_num].
    destruct (Z.eqb_spec (Z.of_nat (length (a :: s))) 2) as [E|E]; [|reflexivity].
    exfalso. apply H. lia.
Qed.

Lemma getFlagImageUrl_rejects (v width : value) :
  (forall s, v = VStr s -> length s <> 2%nat) -> getFlagImageUrl v width = Ok [].
Proof.
  intros H. unfold getFlagImageUrl. rewrite typeof_string.
  destruct v as [| |b|n|s|xs|ps]; try reflexivity.
  - destruct b; reflexivity.
  - cbn [ToBoolean]. destruct (negb (n =? 0)); reflexivity.
  - specialize (H s eq_refl).
    destruct s as [|a s]; [reflexivity|].
    change (ToBoolean (VStr (a :: s))) with true.
    cbn [negb get_length bind strict_neq_num].
    destruct (Z.eqb_spec (Z.of_nat (length (a :: s))) 2) as [E|E]; [|reflexivity].
    exfalso. apply H. lia.
Qed.

Lemma getFlagEmoji_accepts (s : jsstring) :
  length s = 2%nat ->
  getFlagEmoji (VStr s) =
  fromCodePoint (map (fun u => Some (127397 + u)) (toUpperCase s)).
Proof.
  intros H. destruct s as [|a [|b [|c s]]]; try discriminate.
  unfold getFlagEmoji. rewrite typeof_string. simpl ToBoolean. simpl negb.
  cbv iota. simpl get_length. simpl bind. cbv iota.
  f_equal. unfold split_units. rewrite map_map. apply map_ext. reflexivity.
Qed.

Lemma getFlagImageUrl_accepts (s : jsstring) (width : value) (w : jsstring) :
  length s = 2%nat ->
  ToString (or_default width (VNum 40)) = Ok w ->
  getFlagImageUrl (VStr s) width =
  Ok (lit "https://flagcdn.com/w" ++ w ++ lit "/" ++ toLowerCase s ++ lit ".png").
Proof.
  intros H Hw. destruct s as [|a [|b [|c s]]]; try discriminate.
  unfold getFlagImageUrl. rewrite typeof_string. simpl ToBoolean. simpl negb.
  cbv iota. simpl get_length. simpl bind. cbv iota.
  rewrite Hw. reflexivity.
Qed.

(** On a 2-unit string no [RangeError] is possible: a code unit is below
    65536, so every code point is at most 127397 + 65535. *)
Lemma getFlagEmoji_utf16 (s : jsstring) :
  length s = 2%nat ->
  wf_jsstring s = true ->
  getFlagEmoji (VStr s) =
  Ok (flat_map (fun u => utf16 (127397 + u)) (toUpperCase s)).
Proof.
  intros Hlen Hwf. rewrite getFlagEmoji_accepts by exact Hlen.
  replace (map (fun u => Some (127397 + u)) (toUpperCase s))
    with (map Some (map (Z.add 127397) (toUpperCase s)))
    by (rewrite map_map; reflexivity).
  rewrite fromCodePoint_in_range.
  - rewrite flat_map_concat_map, map_map, <- flat_map_concat_map. reflexivity.
  - apply toUpperCase_wf, wf_jsstring_Forall in Hwf.
    apply Forall_map. eapply Forall_impl; [exact Hwf|].
    simpl. intros u Hu. lia.
Qed.

Lemma getFlagEmoji_string_total (s : jsstring) :
  wf_jsstring s = true -> exists flag, getFlagEmoji (VStr s) = Ok flag.
Proof.
  intros Hwf. destruct (decide (length s = 2%nat)) as [H|H].
  - eexists. apply getFlagEmoji_utf16; assumption.
  - exists []. apply getFlagEmoji_rejects. intros t [= <-]. exact H.
Qed.

(** C1 (as the code has it): [getFlagEmoji("US")] is the glyph of the code
    points 127482 and 127480, that is, 127397 plus the char codes of U (85)
    and of S (83): the regional indicators U and S. *)
Theorem getFlagEmoji_US :
  getFlagEmoji (VStr (lit "US")) = fromCodePoint [Some 127482; Some 127480].
Proof.
  rewrite getFlagEmoji_accepts by reflexivity.
  rewrite toUpperCase_ascii by reflexivity. reflexivity.
Qed.

(** C4 (as the code has it): on a 2-unit string, [getFlagEmoji] upper-cases
    the code and maps every code unit of the upper-cased string to the code
    point 127397 + unit; the result is the concatenation of the UTF-16
    encodings of these code points, and no exception is raised.  There are
    exactly two code points whenever upper-casing keeps the length, as it
    does on every ASCII code. *)
Theorem getFlagEmoji_code_points (s : jsstring) :
  length s = 2%nat ->
  wf_jsstring s = true ->
  getFlagEmoji (VStr s) =
    fromCodePoint (map (fun u => Some (127397 + u)) (toUpperCase s))
  /\ getFlagEmoji (VStr s) =
       Ok (flat_map (fun u => utf16 (127397 + u)) (toUpperCase s))
  /\ (length (toUpperCase s) = 2%nat ->
      exists a b, toUpperCase s = [a; b]
        /\ getFlagEmoji (VStr s) =
             fromCodePoint [Some (127397 + a); Some (127397 + b)])
  /\ (is_ascii s = true -> length (toUpperCase s) = 2%nat).
Proof.
  intros Hlen Hwf.
  pose proof (getFlagEmoji_accepts s Hlen) as Hacc.
  split; [exact Hacc|]. split; [|split].
  - apply getFlagEmoji_utf16; assumption.
  - intros H2. rewrite Hacc.
    destruct (toUpperCase s) as [|a [|b [|c t]]]; try discriminate.
    exists a, b. split; reflexivity.
  - intros Ha. rewrite toUpperCase_ascii by exact Ha.
    rewrite length_map. exact Hlen.
Qed.

(** C5: whatever is not a string of exactly two code units (null and
    undefined among them) makes both [getFlagEmoji] and [getFlagImageUrl]
    return the empty string; neither raises. *)
Theorem malformed_code_gives_empty_string (v width : value) :
  (forall s, v = VStr s -> length s <> 2%nat) ->
  getFlagEmoji v = Ok [] /\ getFlagImageUrl v width = Ok [].
Proof.
  intros H. split.
  - apply getFlagEmoji_rejects, H.
  - apply getFlagImageUrl_rejects, H.
Qed.


(** The two examples of the URL builder, on any case conversion that is
    the letter-wise one on ASCII. *)
Lemma getFlagImageUrl_GB_80 :
  getFlagImageUrl (VStr (lit "GB")) (VNum 80) = Ok (lit "https://flagcdn.com/w80/gb.png")
  /\ getFlagImageUrl (VStr (lit "gb")) VUndefined =
       Ok (lit "https://flagcdn.com/w40/gb.png").
Proof.
  split.
  - erewrite getFlagImageUrl_accepts by reflexivity.
    rewrite toLowerCase_ascii by reflexivity. reflexivity.
  - erewrite getFlagImageUrl_accepts by reflexivity.
    rewrite toLowerCase_ascii by reflexivity. reflexivity.
Qed.

(** ** Properties of [getCountrySelectHTML] *)

Lemma getFlagImageUrl_string_total (s : jsstring) (w : Z) :
  exists url, getFlagImageUrl (VStr s) (VNum w) = Ok url.
Proof.
  destruct (decide (length s = 2%nat)) as [H|H].
  - eexists. apply getFlagImageUrl_accepts; [exact H | reflexivity].
  - exists []. apply getFlagImageUrl_rejects. intros t [= <-]. exact H.
Qed.

Lemma getFlagImageUrl_number_total (v : value) (w : Z) :
  exists url, getFlagImageUrl v (VNum w) = Ok url.
Proof.
  destruct v as [| |b|n|s|xs|ps];
    try (exists []; apply getFlagImageUrl_rejects; discriminate).
  apply getFlagImageUrl_string_total.
Qed.

(** The markup of one well-typed entry: the callback never throws on it,
    and the text between the value attribute and [>] is [ selected] or
    nothing, by the comparison of the code with [selectedCode]. *)
Lemma optionHTML_entry (sel : jsstring) (img : bool) (w : Z) (e : entry) :
  exists body,
    optionHTML sel img w (entry_object e) =
      Ok (lit "<option value=" ++ dquote ++ entry_code e ++ dquote
          ++ (if bool_decide (entry_code e = sel) then lit " selected" else [])
          ++ lit ">" ++ body).
Proof.
  destruct (get_field_entry e) as (Hc & Hn & Hf).
  unfold optionHTML. rewrite Hc, Hn, Hf. cbn [bind strict_eq_str].
  destruct img.
  - destruct (getFlagImageUrl_string_total (entry_code e) w) as [url ->].
    cbn [bind ToString]. eexists. reflexivity.
  - cbn [bind ToString]. eexists. reflexivity.
Qed.

(** [countries.map] over well-typed entries yields one fragment per entry,
    in order, each selected exactly when its code is [selectedCode]. *)
Lemma array_map_optionHTML_entries (sel : jsstring) (img : bool) (w : Z)
    (es : list entry) :
  exists parts,
    array_map (optionHTML sel img w) (map entry_object es) = Ok parts
    /\ Forall2 (fun e part =>
                  optionHTML sel img w (entry_object e) = Ok part
                  /\ (carries_selected (entry_code e) part <-> entry_code e = sel))
               es parts.
Proof.
  induction es as [|e es (parts & Hmap & Hall)]; simpl.
  - exists []. split; [reflexivity | constructor].
  - destruct (optionHTML_entry sel img w e) as [body Hbody].
    eexists (_ :: parts). rewrite Hbody, Hmap. split; [reflexivity|].
    constructor; [|exact Hall].
    split; [exact Hbody | apply carries_selected_iff].
Qed.

Lemma getCountrySelectHTML_array (entries : list value) (o : options) :
  getCountrySelectHTML (VArr entries) (Some o) =
  let! parts := array_map (optionHTML (selectedCode_of o) (useImageFlags_of o)
                             (flagWidth_of o)) entries in
  Ok (selectHTML (id_of o) (name_of o) (className_of o)
        (join (newline ++ lit "  ") parts)).
Proof. reflexivity. Qed.

Lemma getCountrySelectHTML_omitted_options (countries : value) :
  getCountrySelectHTML countries None = getCountrySelectHTML countries (Some empty_options).
Proof. reflexivity. Qed.

(** [join] puts the separator between the items: behind a leading
    separator, the joined text is each item behind one separator. *)
Lemma join_concat (sep p : jsstring) (parts : list jsstring) :
  sep ++ join sep (p :: parts) = concat (map (fun part => sep ++ part) (p :: parts)).
Proof.
  revert p. induction parts as [|q parts IH]; intros p.
  - simpl. rewrite app_nil_r. reflexivity.
  - change (join sep (p :: q :: parts)) with (p ++ sep ++ join sep (q :: parts)).
    rewrite IH. simpl. rewrite <- !app_assoc. reflexivity.
Qed.

(** The whole markup in terms of the option fragments: the opening tag,
    every fragment on a line of its own behind two spaces (one such empty
    line when there is no fragment), and the closing tag on the last line. *)
Lemma selectHTML_explicit (id name className : jsstring) (parts : list jsstring) :
  selectHTML id name className (join (newline ++ lit "  ") parts) =
  lit "<select id=" ++ dquote ++ id ++ dquote
  ++ lit " name=" ++ dquote ++ name ++ dquote
  ++ lit " class=" ++ dquote ++ className ++ dquote ++ lit ">"
  ++ match parts with
     | [] => newline ++ lit "  "
     | _ :: _ => concat (map (fun part => newline ++ lit "  " ++ part) parts)
     end
  ++ newline ++ lit "</select>".
Proof.
  unfold selectHTML. do 13 f_equal.
  destruct parts as [|p parts].
  - reflexivity.
  - rewrite (app_assoc newline), (app_assoc (newline ++ lit "  ")).
    rewrite join_concat. reflexivity.
Qed.

(** The markup of one well-typed entry, in full: the opening tag with the
    code as value and [ selected] right after it exactly when the code is
    [selectedCode]; then the flag, the emoji and a space or an image tag;
    then the name and the closing tag. *)
Lemma optionHTML_entry_markup (sel : jsstring) (img : bool) (w : Z) (e : entry) :
  exists display,
    optionHTML sel img w (entry_object e) =
      Ok (lit "<option value=" ++ dquote ++ entry_code e ++ dquote
          ++ (if bool_decide (entry_code e = sel) then lit " selected" else [])
          ++ lit ">" ++ display ++ entry_name e ++ lit "</option>")
    /\ (img = false -> display = entry_flag e ++ lit " ")
    /\ (img = true ->
        exists mid, display = lit "<img src=" ++ dquote ++ mid
                              ++ lit "px;" ++ dquote ++ lit ">").
Proof.
  destruct (get_field_entry e) as (Hc & Hn & Hf).
  unfold optionHTML. rewrite Hc, Hn, Hf. cbn [bind strict_eq_str].
  destruct img.
  - destruct (getFlagImageUrl_string_total (entry_code e) w) as [url ->].
    cbn [bind ToString]. eexists. split; [reflexivity|]. split; [discriminate|].
    intros _.
    exists (url ++ dquote ++ lit " alt=" ++ dquote ++ entry_code e ++ dquote
            ++ lit " style=" ++ dquote
            ++ lit "vertical-align: middle; margin-right: 5px; width: "
            ++ Number_toString w).
    rewrite <- !app_assoc. reflexivity.
  - cbn [bind ToString]. eexists. split; [reflexivity|]. split; [reflexivity|].
    discriminate.
Qed.

Lemma array_map_optionHTML_markup (sel : jsstring) (img : bool) (w : Z)
    (es : list entry) :
  exists parts,
    array_map (optionHTML sel img w) (map entry_object es) = Ok parts
    /\ Forall2 (fun e part =>
                  exists display,
                    part = lit "<option value=" ++ dquote ++ entry_code e ++ dquote
                           ++ (if bool_decide (entry_code e = sel)
                               then lit " selected" else [])
                           ++ lit ">" ++ display ++ entry_name e ++ lit "</option>"
                    /\ (img = false -> display = entry_flag e ++ lit " ")
                    /\ (img = true ->
                        exists mid, display = lit "<img src=" ++ dquote ++ mid
                                              ++ lit "px;" ++ dquote ++ lit ">"))
               es parts.
Proof.
  induction es as [|e es (parts & Hmap & Hall)]; simpl.
  - exists []. split; [reflexivity | constructor].
  - destruct (optionHTML_entry_markup sel img w e) as (display & Hopt & He & Hi).
    eexists (_ :: parts). rewrite Hopt, Hmap. split; [reflexivity|].
    constructor; [|exact Hall]. exists display. auto.
Qed.

(** C7: over a sequence of countries, the renderer returns the select
    element with one option per country, in order, each on a line of its
    own.  The option of a country opens with [<option value="CODE"
    selected>] when its code is equal to [options.selectedCode] as a string
    (no case folding), and with [<option value="CODE">] when it is not; so
    when no code is equal no option is selected, and nothing is raised
    either way. *)
Theorem selected_iff_code_equals_selectedCode (es : list entry) (o : options) :
  exists parts,
    getCountrySelectHTML (VArr (map entry_object es)) (Some o) =
      Ok (lit "<select id=" ++ dquote ++ id_of o ++ dquote
          ++ lit " name=" ++ dquote ++ name_of o ++ dquote
          ++ lit " class=" ++ dquote ++ className_of o ++ dquote ++ lit ">"
          ++ match parts with
             | [] => newline ++ lit "  "
             | _ :: _ => concat (map (fun part => newline ++ lit "  " ++ part) parts)
             end
          ++ newline ++ lit "</select>")
    /\ Forall2 (fun e part =>
                  exists display,
                    ((entry_code e = selectedCode_of o
                      /\ part = lit "<option value=" ++ dquote ++ entry_code e
                                ++ dquote ++ lit " selected>"
                                ++ display ++ entry_name e ++ lit "</option>")
                     \/ (entry_code e <> selectedCode_of o
                         /\ part = lit "<option value=" ++ dquote ++ entry_code e
                                   ++ dquote ++ lit ">"
                                   ++ display ++ entry_name e ++ lit "</option>"))
                    /\ (useImageFlags_of o = false ->
                        display = entry_flag e ++ lit " ")
                    /\ (useImageFlags_of o = true ->
                        exists mid, display = lit "<img src=" ++ dquote ++ mid
                                              ++ lit "px;" ++ dquote ++ lit ">")
                    /\ (carries_selected (entry_code e) part
                        <-> entry_code e = selectedCode_of o))
               es parts
    /\ ((forall e, In e es -> entry_code e <> selectedCode_of o) ->
        Forall2 (fun e part =>
                   exists rest,
                     part = lit "<option value=" ++ dquote ++ entry_code e
                            ++ dquote ++ lit ">" ++ rest
                     /\ ~ carries_selected (entry_code e) part)
                es parts).
Proof.
  destruct (array_map_optionHTML_markup (selectedCode_of o) (useImageFlags_of o)
              (flagWidth_of o) es) as (parts & Hmap & Hall).
  assert (Hfull : Forall2 (fun e part =>
            exists display,
              ((entry_code e = selectedCode_of o
                /\ part = lit "<option value=" ++ dquote ++ entry_code e
                          ++ dquote ++ lit " selected>"
                          ++ display ++ entry_name e ++ lit "</option>")
               \/ (entry_code e <> selectedCode_of o
                   /\ part = lit "<option value=" ++ dquote ++ entry_code e
                             ++ dquote ++ lit ">"
                             ++ display ++ entry_name e ++ lit "</option>"))
              /\ (useImageFlags_of o = false -> display = entry_flag e ++ lit " ")
              /\ (useImageFlags_of o = true ->
                  exists mid, display = lit "<img src=" ++ dquote ++ mid
                                        ++ lit "px;" ++ dquote ++ lit ">")
              /\ (carries_selected (entry_code e) part
                  <-> entry_code e = selectedCode_of o)) es parts).
  { eapply Forall2_impl; [exact Hall|].
    intros e part (display & -> & He & Hi). exists display.
    split; [|split; [exact He|split; [exact Hi|apply carries_selected_iff]]].
    destruct (bool_decide_reflect (entry_code e = selectedCode_of o)) as [E|E].
    - left. split; [exact E|]. reflexivity.
    - right. split; [exact E|]. reflexivity. }
  exists parts. split; [|split].
  - rewrite getCountrySelectHTML_array, Hmap. cbn [bind].
    rewrite selectHTML_explicit. reflexivity.
  - exact Hfull.
  - intros Hno. clear Hmap Hall.
    induction Hfull as [|e part es parts (display & Hpart & _ & _ & Hiff) _ IH];
      constructor.
    + assert (Hne : entry_code e <> selectedCode_of o)
        by (apply Hno; left; reflexivity).
      destruct Hpart as [[E _]|[_ ->]]; [contradiction|].
      eexists. split; [reflexivity|].
      intros Hsel. apply Hne.
      apply (carries_selected_iff (entry_code e) (selectedCode_of o)
               (display ++ entry_name e ++ lit "</option>")).
      rewrite bool_decide_false by exact Hne. exact Hsel.
    + apply IH. intros e' He'. apply Hno. right. exact He'.
Qed.

(** C10: when two (or more) countries of the sequence have the code
    [options.selectedCode], the option of every country with that code
    opens with [<option value="CODE" selected>] in the returned markup: the
    renderer marks all of them, not only the first. *)
Theorem duplicated_codes_all_selected (es : list entry) (o : options)
    (i j : nat) (ei ej : entry) :
  i <> j ->
  es !! i = Some ei ->
  es !! j = Some ej ->
  entry_code ei = selectedCode_of o ->
  entry_code ej = selectedCode_of o ->
  exists parts,
    getCountrySelectHTML (VArr (map entry_object es)) (Some o) =
      Ok (lit "<select id=" ++ dquote ++ id_of o ++ dquote
          ++ lit " name=" ++ dquote ++ name_of o ++ dquote
          ++ lit " class=" ++ dquote ++ className_of o ++ dquote ++ lit ">"
          ++ concat (map (fun part => newline ++ lit "  " ++ part) parts)
          ++ newline ++ lit "</select>")
    /\ length parts = length es
    /\ (forall k e, es !! k = Some e -> entry_code e = selectedCode_of o ->
        exists display,
          parts !! k =
            Some (lit "<option value=" ++ dquote ++ selectedCode_of o ++ dquote
                  ++ lit " selected>" ++ display ++ entry_name e ++ lit "</option>"))
    /\ (exists di dj,
          parts !! i =
            Some (lit "<option value=" ++ dquote ++ selectedCode_of o ++ dquote
                  ++ lit " selected>" ++ di ++ entry_name ei ++ lit "</option>")
          /\ parts !! j =
               Some (lit "<option value=" ++ dquote ++ selectedCode_of o ++ dquote
                     ++ lit " selected>" ++ dj ++ entry_name ej ++ lit "</option>")).
Proof.
  intros Hij Hi Hj Hci Hcj.
  destruct (array_map_optionHTML_markup (selectedCode_of o) (useImageFlags_of o)
              (flagWidth_of o) es) as (parts & Hmap & Hall).
  assert (Hsel : forall k e, es !! k = Some e ->
            entry_code e = selectedCode_of o ->
            exists display,
              parts !! k =
                Some (lit "<option value=" ++ dquote ++ selectedCode_of o ++ dquote
                      ++ lit " selected>" ++ display ++ entry_name e
                      ++ lit "</option>")).
  { intros k e Hk Hc.
    destruct (Forall2_lookup_l _ _ _ _ _ Hall Hk)
      as (part & Hpart & display & -> & _).
    exists display.
    rewrite bool_decide_true in Hpart by exact Hc.
    rewrite Hc in Hpart. exact Hpart. }
  exists parts. split; [|split; [|split]].
  - rewrite getCountrySelectHTML_array, Hmap. cbn [bind].
    rewrite selectHTML_explicit.
    destruct parts as [|p parts]; [|reflexivity].
    apply Forall2_length in Hall. destruct es; [discriminate Hi | discriminate Hall].
  - symmetry. exact (Forall2_length _ _ _ Hall).
  - exact Hsel.
  - destruct (Hsel i ei Hi Hci) as (di & Hdi).
    destruct (Hsel j ej Hj Hcj) as (dj & Hdj).
    exists di, dj. auto.
Qed.

(** C8: on the empty sequence and the options [{}] (or no options), the
    renderer returns a select element with the default id and name and
    [class=""], without any [<option]. *)
Theorem empty_sequence_markup :
  let html :=
    lit "<select id=" ++ dquote ++ lit "country-select" ++ dquote
    ++ lit " name=" ++ dquote ++ lit "country" ++ dquote
    ++ lit " class=" ++ dquote ++ dquote ++ lit ">"
    ++ newline ++ lit "  " ++ newline ++ lit "</select>" in
  getCountrySelectHTML (VArr []) (Some empty_options) = Ok html
  /\ getCountrySelectHTML (VArr []) None = Ok html
  /\ includes (lit "<option") html = false.
Proof. repeat split; reflexivity. Qed.

(** C2 (as the code has it): when [options.className] is the empty string
    (its default), the select element is emitted with an empty class
    attribute, [class=""], after its id and name. *)
Theorem empty_className_gives_empty_class_attribute (es : list entry) (o : options) :
  className_of o = [] ->
  exists html,
    getCountrySelectHTML (VArr (map entry_object es)) (Some o) = Ok html
    /\ (lit "<select id=" ++ dquote ++ id_of o ++ dquote
        ++ lit " name=" ++ dquote ++ name_of o ++ dquote
        ++ lit " class=" ++ dquote ++ dquote ++ lit ">") `prefix_of` html.
Proof.
  intros Hc.
  destruct (array_map_optionHTML_entries (selectedCode_of o) (useImageFlags_of o)
              (flagWidth_of o) es) as (parts & Hmap & _).
  eexists. split.
  - rewrite getCountrySelectHTML_array, Hmap. reflexivity.
  - unfold selectHTML. rewrite Hc, app_nil_l.
    do 11 apply prefix_app. apply prefix_app_r. reflexivity.
Qed.

(** *** Exceptions of the renderer *)

Lemma optionHTML_throws_TypeError (sel : jsstring) (img : bool) (w : Z)
    (v : value) (e : exn) :
  optionHTML sel img w v = Throw e -> e = TypeError.
Proof.
  unfold optionHTML. intros H.
  repeat match type of H with
         | bind (get_field _ _) _ = Throw _ =>
             apply bind_Throw_inv in H as [H | (? & _ & H)];
             [exact (get_field_throws_TypeError _ _ _ H)|]
         end.
  apply bind_Throw_inv in H as [H | (display & _ & H)].
  - destruct img.
    + apply bind_Throw_inv in H as [H | (url & _ & H)].
      * destruct (getFlagImageUrl_number_total x w) as [url Hurl]. congruence.
      * apply bind_Throw_inv in H as [H | (c & _ & H)]; [|discriminate].
        exact (ToString_throws_TypeError _ _ H).
    + apply bind_Throw_inv in H as [H | (f & _ & H)]; [|discriminate].
      exact (ToString_throws_TypeError _ _ H).
  - apply bind_Throw_inv in H as [H | (c & _ & H)];
      [exact (ToString_throws_TypeError _ _ H)|].
    apply bind_Throw_inv in H as [H | (n & _ & H)];
      [exact (ToString_throws_TypeError _ _ H) | discriminate].
Qed.

Lemma optionHTML_renderable (sel : jsstring) (img : bool) (w : Z) (v : value) :
  renderable_entry v = true -> exists part, optionHTML sel img w v = Ok part.
Proof.
  intros Hv.
  assert (Hu : v <> VUndefined) by (intros ->; discriminate).
  assert (Hn : v <> VNull) by (intros ->; discriminate).
  assert (Hp : is_primitive (field_or_undefined v (lit "code")) = true
               /\ is_primitive (field_or_undefined v (lit "name")) = true
               /\ is_primitive (field_or_undefined v (lit "flag")) = true).
  { destruct v; try discriminate; simpl in Hv;
      repeat (apply andb_true_iff in Hv as [Hv ?]); auto. }
  destruct Hp as (Hc & Hm & Hf).
  destruct (ToString_primitive _ Hc) as [c Ec].
  destruct (ToString_primitive _ Hm) as [m Em].
  destruct (ToString_primitive _ Hf) as [f Ef].
  destruct (getFlagImageUrl_number_total (field_or_undefined v (lit "code")) w)
    as [url Eurl].
  unfold optionHTML. rewrite !get_field_defined by assumption.
  cbn [bind]. rewrite Eurl, Ec, Em, Ef.
  destruct img; cbn [bind]; eauto.
Qed.

(** C3 (as the code has it): the renderer raises the error with the message
    "Countries must be an array" if and only if [countries] is not an array,
    and raises no other [Error]; given an array (possibly empty) whose
    entries are neither [undefined] nor [null] and have primitive (string,
    in particular) or missing [code], [name] and [flag], and a well-formed
    options object or none, it returns a string. *)
Theorem invalid_input_iff_not_array (countries : value) (opts : option options) :
  (getCountrySelectHTML countries opts =
     Throw (Error (lit "Countries must be an array"))
   <-> Array_isArray countries = false)
  /\ (forall msg, getCountrySelectHTML countries opts = Throw (Error msg) ->
      Array_isArray countries = false)
  /\ (forall entries, countries = VArr entries ->
      forallb renderable_entry entries = true ->
      exists html, getCountrySelectHTML countries opts = Ok html).
Proof.
  assert (Harr : forall entries e,
            getCountrySelectHTML (VArr entries) opts = Throw e -> e = TypeError).
  { intros entries e H. unfold getCountrySelectHTML in H. cbn [Array_isArray negb] in H.
    apply bind_Throw_inv in H as [H | (parts & _ & H)]; [|discriminate].
    eapply array_map_throws_TypeError; [|exact H].
    intros x e'. apply optionHTML_throws_TypeError. }
  split; [|split].
  - split.
    + intros H. destruct countries; try reflexivity.
      apply Harr in H. discriminate H.
    + intros H. destruct countries; try discriminate H; reflexivity.
  - intros msg H. destruct countries; try reflexivity.
    apply Harr in H. discriminate H.
  - intros entries -> Hall.
    unfold getCountrySelectHTML. cbn [Array_isArray negb].
    match goal with
    | |- context [array_map ?f entries] =>
        destruct (array_map_total f entries) as [parts ->]
    end.
    + apply Forall_forall. intros x Hx. apply optionHTML_renderable.
      rewrite forallb_forall in Hall. apply Hall, list_elem_of_In, Hx.
    + simpl. eauto.
Qed.

(** ** Properties of [index.js] *)

(** On a table of well-formed strings [getAllCountries] returns an array
    with one object per row, in order, whose flag is the emoji of the row's
    code. *)
Lemma getAllCountries_total (countries : list country) :
  Forall (fun c => wf_jsstring (country_code c) = true) countries ->
  exists entries,
    getAllCountries countries = Ok (VArr (map entry_object entries))
    /\ Forall2 (fun c e => entry_name e = country_name c
                           /\ entry_code e = country_code c
                           /\ getFlagEmoji (VStr (country_code c)) = Ok (entry_flag e))
               countries entries.
Proof.
  unfold getAllCountries.
  induction 1 as [|c cs Hc _ (entries & Hmap & Hall)]; simpl.
  - exists []. split; [reflexivity | constructor].
  - destruct (getFlagEmoji_string_total _ Hc) as [flag Hflag].
    destruct (array_map _ cs) as [objs|e] eqn:Eobjs; [|discriminate Hmap].
    injection Hmap as ->.
    exists (mkEntry (country_name c) (country_code c) flag :: entries).
    rewrite Hflag. split; [reflexivity|].
    constructor; [|exact Hall]. simpl. auto.
Qed.

(** C9: [getCountrySelect(options)] is [getCountrySelectHTML] applied to
    the array that [getAllCountries()] returns and to the same options
    (omitted options included); on a table of well-formed strings both
    return the same string. *)
Theorem getCountrySelect_renders_all_countries (countries : list country)
    (opts : option options) :
  getCountrySelect countries opts =
    (let! all := getAllCountries countries in getCountrySelectHTML all opts)
  /\ (Forall (fun c => wf_jsstring (country_code c) = true) countries ->
      exists all html,
        getAllCountries countries = Ok all
        /\ getCountrySelectHTML all opts = Ok html
        /\ getCountrySelect countries opts = Ok html).
Proof.
  assert (Heq : getCountrySelect countries opts =
                (let! all := getAllCountries countries in
                 getCountrySelectHTML all opts))
    by (destruct opts; reflexivity).
  split; [exact Heq|].
  intros Hwf. rewrite Heq.
  destruct (getAllCountries_total countries Hwf) as (entries & -> & _).
  set (o := default empty_options opts).
  destruct (array_map_optionHTML_entries (selectedCode_of o) (useImageFlags_of o)
              (flagWidth_of o) entries) as (parts & Hmap & _).
  assert (Hhtml : getCountrySelectHTML (VArr (map entry_object entries)) opts =
                  Ok (selectHTML (id_of o) (name_of o) (className_of o)
                        (join (newline ++ lit "  ") parts))).
  { replace (getCountrySelectHTML (VArr (map entry_object entries)) opts)
      with (getCountrySelectHTML (VArr (map entry_object entries)) (Some o))
      by (destruct opts; reflexivity).
    rewrite getCountrySelectHTML_array, Hmap. reflexivity. }
  eexists _, _. split; [reflexivity|]. split; [exact Hhtml|].
  simpl. exact Hhtml.
Qed.

End Properties.

(** ** The claims at concrete inputs

    The lemmas below are closed: they run the functions on the Latin-1 case
    conversion [latin1_case], on strings of its blocks. *)

(** C1 as stated fails: [String.fromCodePoint(127464, 127482)] is another
    string than [getFlagEmoji("US")]; it is the pair of regional indicators
    C and U, the result for "CU". *)
Lemma getFlagEmoji_US_is_not_127464_127482 :
  getFlagEmoji (sc := latin1_case) (VStr (lit "US"))
    <> fromCodePoint [Some 127464; Some 127482]
  /\ getFlagEmoji (sc := latin1_case) (VStr (lit "CU"))
     = fromCodePoint [Some 127464; Some 127482].
Proof. split; [vm_compute; discriminate | reflexivity]. Qed.

Lemma getFlagEmoji_US_witness :
  getFlagEmoji (VStr (lit "US")) = Ok [55356; 56826; 55356; 56824].
Proof. exact (getFlagEmoji_US (sc_spec := latin1_case_spec)). Defined.

(** C2 as stated fails: with [className] the empty string, the markup still
    has a class attribute, [class=""]. *)
Lemma empty_className_keeps_class_attribute :
  exists html,
    getCountrySelectHTML (sc := latin1_case) (VArr [])
      (Some (mkOptions None None (Some []) None None None)) = Ok html
    /\ includes (lit " class=") html = true.
Proof. eexists. split; reflexivity. Qed.

Lemma empty_className_gives_empty_class_attribute_witness :
  exists html,
    getCountrySelectHTML (VArr (map entry_object [])) (Some empty_options) = Ok html
    /\ (lit "<select id=" ++ dquote ++ id_of empty_options ++ dquote
        ++ lit " name=" ++ dquote ++ name_of empty_options ++ dquote
        ++ lit " class=" ++ dquote ++ dquote ++ lit ">") `prefix_of` html.
Proof.
  apply (empty_className_gives_empty_class_attribute [] empty_options).
  reflexivity.
Defined.

(** C3 as stated fails: an array holding [null] (or [undefined]) is a
    sequence, and the renderer raises on it (a [TypeError], from
    destructuring the entry). *)
Lemma null_entry_raises_TypeError :
  Array_isArray (VArr [VNull]) = true
  /\ getCountrySelectHTML (sc := latin1_case) (VArr [VNull]) (Some empty_options)
     = Throw TypeError
  /\ getCountrySelectHTML (sc := latin1_case) (VArr [VUndefined]) None
     = Throw TypeError.
Proof. repeat split; reflexivity. Qed.

Lemma invalid_input_iff_not_array_witness :
  (getCountrySelectHTML (VStr (lit "IN")) None =
     Throw (Error (lit "Countries must be an array")))
  /\ (getCountrySelectHTML VNull (Some empty_options) =
        Throw (Error (lit "Countries must be an array")))
  /\ (getCountrySelectHTML (VNum 7) None =
        Throw (Error (lit "Countries must be an array")))
  /\ (getCountrySelectHTML VUndefined None =
        Throw (Error (lit "Countries must be an array")))
  /\ (exists html,
        getCountrySelectHTML
          (VArr [entry_object (mkEntry (lit "India") (lit "IN") (lit ""))])
          (Some empty_options) = Ok html).
Proof.
  split; [|split; [|split; [|split]]].
  - apply (proj2 (proj1 (invalid_input_iff_not_array (VStr (lit "IN")) None))).
    reflexivity.
  - apply (proj2 (proj1 (invalid_input_iff_not_array VNull (Some empty_options)))).
    reflexivity.
  - apply (proj2 (proj1 (invalid_input_iff_not_array (VNum 7) None))).
    reflexivity.
  - apply (proj2 (proj1 (invalid_input_iff_not_array VUndefined None))).
    reflexivity.
  - apply (proj2 (proj2 (invalid_input_iff_not_array
             (VArr [entry_object (mkEntry (lit "India") (lit "IN") (lit ""))])
             (Some empty_options))) _ eq_refl).
    reflexivity.
Defined.

(** C4 as stated fails on the 2-unit string of U+00DF (sharp s) and "a":
    its upper-casing is "SSA", three units, and the result is the glyph of
    three code points, which no two code points give. *)
Lemma getFlagEmoji_sharp_s_three_code_points :
  length [223; 97] = 2%nat
  /\ wf_jsstring [223; 97] = true
  /\ toUpperCase (StringCase := latin1_case) [223; 97] = lit "SSA"
  /\ getFlagEmoji (sc := latin1_case) (VStr [223; 97]) =
       fromCodePoint [Some 127480; Some 127480; Some 127462]
  /\ (forall x y : Z,
        getFlagEmoji (sc := latin1_case) (VStr [223; 97])
        <> fromCodePoint [Some x; Some y]).
Proof.
  repeat split; try reflexivity.
  intros x y H. symmetry in H.
  change (getFlagEmoji (VStr [223; 97]))
    with (@Ok jsstring [55356; 56824; 55356; 56824; 55356; 56806]) in H.
  apply fromCodePoint_length_le in H. simpl in H. lia.
Qed.

Lemma getFlagEmoji_code_points_witness :
  getFlagEmoji (VStr (lit "in")) =
    fromCodePoint (map (fun u => Some (127397 + u)) (toUpperCase (lit "in")))
  /\ getFlagEmoji (VStr (lit "in")) =
       Ok (flat_map (fun u => utf16 (127397 + u)) (toUpperCase (lit "in")))
  /\ (length (toUpperCase (lit "in")) = 2%nat ->
      exists a b, toUpperCase (lit "in") = [a; b]
        /\ getFlagEmoji (VStr (lit "in")) =
             fromCodePoint [Some (127397 + a); Some (127397 + b)])
  /\ (is_ascii (lit "in") = true -> length (toUpperCase (lit "in")) = 2%nat).
Proof.
  apply (getFlagEmoji_code_points (sc_spec := latin1_case_spec) (lit "in"));
    reflexivity.
Defined.

Lemma malformed_code_gives_empty_string_witness :
  (getFlagEmoji (VStr (lit "XXX")) = Ok []
   /\ getFlagImageUrl (VStr (lit "XXX")) (VNum 10) = Ok [])
  /\ (getFlagEmoji VNull = Ok [] /\ getFlagImageUrl VNull VUndefined = Ok []).
Proof.
  split.
  - apply (malformed_code_gives_empty_string (VStr (lit "XXX")) (VNum 10)).
    intros s Hs. injection Hs as <-. discriminate.
  - apply (malformed_code_gives_empty_string VNull VUndefined).
    intros s Hs. discriminate Hs.
Defined.


(** The two-entry example of the specification, in emoji mode: with
    [selectedCode] "AX", the option of the second entry, and only it, is
    selected. *)
Lemma selected_iff_code_equals_selectedCode_witness :
  let af := mkEntry (lit "Afghanistan") (lit "AF") [55356; 56806; 55356; 56811] in
  let ax := mkEntry [197; 108; 97; 110; 100] (lit "AX") [55356; 56806; 55356; 56829] in
  let o := mkOptions None None None (Some (lit "AX")) (Some false) None in
  getCountrySelectHTML (VArr (map entry_object [af; ax])) (Some o) =
    Ok (lit "<select id=" ++ dquote ++ lit "country-select" ++ dquote
        ++ lit " name=" ++ dquote ++ lit "country" ++ dquote
        ++ lit " class=" ++ dquote ++ dquote ++ lit ">"
        ++ newline ++ lit "  <option value=" ++ dquote ++ lit "AF" ++ dquote ++ lit ">"
        ++ entry_flag af ++ lit " Afghanistan</option>"
        ++ newline ++ lit "  <option value=" ++ dquote ++ lit "AX" ++ dquote
        ++ lit " selected>" ++ entry_flag ax ++ lit " " ++ entry_name ax
        ++ lit "</option>"
        ++ newline ++ lit "</select>").
Proof.
  intros af ax o.
  destruct (selected_iff_code_equals_selectedCode (sc := latin1_case) [af; ax] o)
    as (parts & Hout & Hparts & _).
  rewrite Hout. clear Hout.
  apply Forall2_cons_inv_l in Hparts
    as (p1 & ps1 & (d1 & H1 & E1 & _) & Hrest & ->).
  apply Forall2_cons_inv_l in Hrest
    as (p2 & ps2 & (d2 & H2 & E2 & _) & Hnil & ->).
  apply Forall2_nil_inv_l in Hnil as ->.
  rewrite (E1 eq_refl) in H1. rewrite (E2 eq_refl) in H2.
  destruct H1 as [[E _]|[_ ->]]; [discriminate E|].
  destruct H2 as [[_ ->]|[E _]]; [|exfalso; apply E; reflexivity].
  reflexivity.
Defined.

Lemma duplicated_codes_all_selected_witness :
  let india := mkEntry (lit "India") (lit "IN") [55356; 56814; 55356; 56819] in
  let o := mkOptions None None None (Some (lit "IN")) (Some false) None in
  exists parts,
    getCountrySelectHTML (VArr (map entry_object [india; india])) (Some o) =
      Ok (lit "<select id=" ++ dquote ++ id_of o ++ dquote
          ++ lit " name=" ++ dquote ++ name_of o ++ dquote
          ++ lit " class=" ++ dquote ++ className_of o ++ dquote ++ lit ">"
          ++ concat (map (fun part => newline ++ lit "  " ++ part) parts)
          ++ newline ++ lit "</select>")
    /\ length parts = 2%nat
    /\ (forall k e, [india; india] !! k = Some e ->
        entry_code e = selectedCode_of o ->
        exists display,
          parts !! k =
            Some (lit "<option value=" ++ dquote ++ selectedCode_of o ++ dquote
                  ++ lit " selected>" ++ display ++ entry_name e ++ lit "</option>"))
    /\ (exists di dj,
          parts !! 0%nat =
            Some (lit "<option value=" ++ dquote ++ lit "IN" ++ dquote
                  ++ lit " selected>" ++ di ++ lit "India" ++ lit "</option>")
          /\ parts !! 1%nat =
               Some (lit "<option value=" ++ dquote ++ lit "IN" ++ dquote
                     ++ lit " selected>" ++ dj ++ lit "India" ++ lit "</option>")).
Proof.
  intros india o.
  exact (duplicated_codes_all_selected (sc := latin1_case) [india; india] o 0 1
           india india ltac:(discriminate) eq_refl eq_refl eq_refl eq_refl).
Defined.

Lemma getCountrySelect_renders_all_countries_witness :
  let table := [mkCountry (lit "Afghanistan") (lit "AF");
                mkCountry (lit "India") (lit "IN")] in
  let opts := Some (mkOptions None None None (Some (lit "IN")) None None) in
  getCountrySelect table opts =
    (let! all := getAllCountries table in getCountrySelectHTML all opts)
  /\ exists all html,
       getAllCountries table = Ok all
       /\ getCountrySelectHTML all opts = Ok html
       /\ getCountrySelect table opts = Ok html.
Proof.
  intros table opts.
  destruct (getCountrySelect_renders_all_countries (sc_spec := latin1_case_spec)
              table opts) as [Heq Hok].
  split; [exact Heq|].
  apply Hok. repeat constructor.
Defined.

(** ** Worked examples *)

Example getFlagEmoji_IN :
  getFlagEmoji (VStr (lit "IN")) = Ok [55356; 56814; 55356; 56819].
Proof. reflexivity. Qed.

Example getFlagEmoji_lower_case_in :
  getFlagEmoji (VStr (lit "in")) = getFlagEmoji (VStr (lit "IN")).
Proof. reflexivity. Qed.

Example getFlagImageUrl_DE :
  getFlagImageUrl (VStr (lit "DE")) (VNum 80) = Ok (lit "https://flagcdn.com/w80/de.png").
Proof. reflexivity. Qed.

Example getCountrySelectHTML_india_selected :
  getCountrySelectHTML
    (VArr [entry_object (mkEntry (lit "India") (lit "IN") [55356; 56814; 55356; 56819])])
    (Some (mkOptions None None None (Some (lit "IN")) None None))
  = Ok (lit "<select id=" ++ dquote ++ lit "country-select" ++ dquote
        ++ lit " name=" ++ dquote ++ lit "country" ++ dquote
        ++ lit " class=" ++ dquote ++ dquote ++ lit ">" ++ newline
        ++ lit "  <option value=" ++ dquote ++ lit "IN" ++ dquote ++ lit " selected>"
        ++ lit "<img src=" ++ dquote ++ lit "https://flagcdn.com/w40/in.png" ++ dquote
        ++ lit " alt=" ++ dquote ++ lit "IN" ++ dquote
        ++ lit " style=" ++ dquote
        ++ lit "vertical-align: middle; margin-right: 5px; width: 40px;" ++ dquote
        ++ lit ">India</option>" ++ newline ++ lit "</select>").
Proof. reflexivity. Qed.

Example getCountrySelectHTML_emoji_two_entries :
  getCountrySelectHTML
    (VArr [entry_object (mkEntry (lit "Afghanistan") (lit "AF") [55356; 56806; 55356; 56811]);
           entry_object (mkEntry (lit "India") (lit "IN") [55356; 56814; 55356; 56819])])
    (Some (mkOptions (Some (lit "c")) None (Some (lit "dd")) (Some (lit "in"))
             (Some false) None))
  = Ok (lit "<select id=" ++ dquote ++ lit "c" ++ dquote
        ++ lit " name=" ++ dquote ++ lit "country" ++ dquote
        ++ lit " class=" ++ dquote ++ lit "dd" ++ dquote ++ lit ">" ++ newline
        ++ lit "  <option value=" ++ dquote ++ lit "AF" ++ dquote ++ lit ">"
        ++ [55356; 56806; 55356; 56811] ++ lit " Afghanistan</option>" ++ newline
        ++ lit "  <option value=" ++ dquote ++ lit "IN" ++ dquote ++ lit ">"
        ++ [55356; 56814; 55356; 56819] ++ lit " India</option>" ++ newline
        ++ lit "</select>").
Proof. reflexivity. Qed.

Example getCountrySelectHTML_duplicated_code :
  getCountrySelectHTML
    (VArr [entry_object (mkEntry (lit "India") (lit "IN") [55356; 56814; 55356; 56819]);
           entry_object (mkEntry (lit "Bharat") (lit "IN") [55356; 56814; 55356; 56819])])
    (Some (mkOptions None None None (Some (lit "IN")) (Some false) None))
  = Ok (lit "<select id=" ++ dquote ++ lit "country-select" ++ dquote
        ++ lit " name=" ++ dquote ++ lit "country" ++ dquote
        ++ lit " class=" ++ dquote ++ dquote ++ lit ">" ++ newline
        ++ lit "  <option value=" ++ dquote ++ lit "IN" ++ dquote ++ lit " selected>"
        ++ [55356; 56814; 55356; 56819] ++ lit " India</option>" ++ newline
        ++ lit "  <option value=" ++ dquote ++ lit "IN" ++ dquote ++ lit " selected>"
        ++ [55356; 56814; 55356; 56819] ++ lit " Bharat</option>" ++ newline
        ++ lit "</select>").
Proof. reflexivity. Qed.

Example getAllCountries_two_rows :
  getAllCountries [mkCountry (lit "Afghanistan") (lit "AF");
                   mkCountry (lit "India") (lit "IN")]
  = Ok (VArr [country_object (lit "Afghanistan") (lit "AF") [55356; 56806; 55356; 56811];
              country_object (lit "India") (lit "IN") [55356; 56814; 55356; 56819]]).
Proof. reflexivity. Qed.

(** ** Further properties of [getFlagEmoji] and [getFlagImageUrl] *)

Lemma upper_ascii_cases (u : Z) :
  (97 <= u <= 122 /\ upper_ascii u = u - 32)
  \/ (~ 97 <= u <= 122 /\ upper_ascii u = u).
Proof.
  unfold upper_ascii.
  destruct (Z.leb_spec 97 u), (Z.leb_spec u 122); simpl;
    [left | right | right | right]; split; (lia || reflexivity).
Qed.

Lemma lower_ascii_cases (u : Z) :
  (65 <= u <= 90 /\ lower_ascii u = u + 32)
  \/ (~ 65 <= u <= 90 /\ lower_ascii u = u).
Proof.
  unfold lower_ascii.
  destruct (Z.leb_spec 65 u), (Z.leb_spec u 90); simpl;
    [left | right | right | right]; split; (lia || reflexivity).
Qed.

Ltac ascii_cases :=
  repeat match goal with
         | |- context [upper_ascii ?u] =>
             destruct (upper_ascii_cases u) as [[? ->] | [? ->]]
         | |- context [lower_ascii ?u] =>
             destruct (lower_ascii_cases u) as [[? ->] | [? ->]]
         end;
  try lia.

Lemma upper_ascii_range (u : Z) : 0 <= u < 128 -> 0 <= upper_ascii u < 128.
Proof. intros H. ascii_cases. Qed.

Lemma lower_ascii_range (u : Z) : 0 <= u < 128 -> 0 <= lower_ascii u < 128.
Proof. intros H. ascii_cases. Qed.

Lemma upper_ascii_idem (u : Z) : upper_ascii (upper_ascii u) = upper_ascii u.
Proof.
  destruct (upper_ascii_cases u) as [[? E] | [? E]]; rewrite E; ascii_cases.
Qed.

Lemma lower_ascii_idem (u : Z) : lower_ascii (lower_ascii u) = lower_ascii u.
Proof.
  destruct (lower_ascii_cases u) as [[? E] | [? E]]; rewrite E; ascii_cases.
Qed.

Lemma upper_lower_ascii (u : Z) : upper_ascii (lower_ascii u) = upper_ascii u.
Proof.
  destruct (lower_ascii_cases u) as [[? E] | [? E]]; rewrite E; ascii_cases.
Qed.

Lemma lower_upper_ascii (u : Z) : lower_ascii (upper_ascii u) = lower_ascii u.
Proof.
  destruct (upper_ascii_cases u) as [[? E] | [? E]]; rewrite E; ascii_cases.
Qed.

Lemma is_ascii_Forall (s : jsstring) :
  is_ascii s = true <-> Forall (fun u => 0 <= u < 128) s.
Proof.
  unfold is_ascii. rewrite forallb_forall, Forall_forall.
  split; intros H u Hu.
  - apply list_elem_of_In in Hu. apply H in Hu.
    apply andb_true_iff in Hu as [H0 H1].
    apply Z.leb_le in H0. apply Z.ltb_lt in H1. lia.
  - apply list_elem_of_In in Hu. apply H in Hu.
    apply andb_true_iff. rewrite Z.leb_le, Z.ltb_lt. lia.
Qed.

Lemma is_ascii_map (f : Z -> Z) (s : jsstring) :
  (forall u, 0 <= u < 128 -> 0 <= f u < 128) ->
  is_ascii s = true -> is_ascii (map f s) = true.
Proof.
  intros Hf Hs. apply is_ascii_Forall. apply is_ascii_Forall in Hs.
  apply Forall_map. eapply Forall_impl; [exact Hs|]. exact Hf.
Qed.

Lemma is_ascii_wf (s : jsstring) : is_ascii s = true -> wf_jsstring s = true.
Proof.
  intros Hs. apply wf_jsstring_Forall. apply is_ascii_Forall in Hs.
  eapply Forall_impl; [exact Hs|]. simpl. intros u Hu. lia.
Qed.

(** The decimal string of an integer holds digits and at most a leading
    minus sign, never a slash. *)
Lemma Number_toString_no_slash (n : Z) : ~ In 47 (Number_toString n).
Proof.
  unfold Number_toString. intros H.
  assert (Hd : forall d, ~ In 47 (uint_units d)).
  { intros d Hin. pose proof (uint_units_digits d) as Hall.
    rewrite Forall_forall in Hall. apply list_elem_of_In, Hall in Hin. lia. }
  destruct (Z.to_int n) as [d|d].
  - exact (Hd d H).
  - destruct H as [H|H]; [discriminate H | exact (Hd d H)].
Qed.

Lemma app_separator_inj (x : Z) (d1 d2 r1 r2 : list Z) :
  ~ In x d1 -> ~ In x d2 ->
  d1 ++ x :: r1 = d2 ++ x :: r2 -> d1 = d2 /\ r1 = r2.
Proof.
  revert d2. induction d1 as [|a d1 IH]; intros [|b d2] H1 H2 E; simpl in *.
  - injection E as ->. auto.
  - injection E as <- _. exfalso. apply H2. left. reflexivity.
  - injection E as -> _. exfalso. apply H1. left. reflexivity.
  - injection E as -> E. destruct (IH d2) as [-> ->]; auto.
Qed.

Lemma starts_with_app (p s : jsstring) : starts_with p (p ++ s) = true.
Proof.
  induction p as [|a p IH]; simpl; [reflexivity|].
  rewrite Z.eqb_refl. exact IH.
Qed.

Lemma includes_app (needle pre post : jsstring) :
  includes needle (pre ++ needle ++ post) = true.
Proof.
  induction pre as [|a pre IH]; simpl.
  - pose proof (starts_with_app needle post) as H.
    destruct (needle ++ post); simpl; rewrite H; reflexivity.
  - rewrite IH. apply orb_true_r.
Qed.

Lemma includes_skip (needle pre hay : jsstring) :
  includes needle hay = true -> includes needle (pre ++ hay) = true.
Proof.
  intros H. induction pre as [|a pre IH]; simpl; [exact H|].
  rewrite IH. apply orb_true_r.
Qed.

Lemma includes_here (needle post : jsstring) :
  includes needle (needle ++ post) = true.
Proof. apply (includes_app needle [] post). Qed.

Lemma Ok_inj {A : Type} (a b : A) : Ok a = Ok b -> a = b.
Proof. intros H. congruence. Qed.

Ltac find_included :=
  rewrite <- ?app_assoc;
  repeat first [ apply includes_here | apply includes_skip ].

Lemma join_In_split (sep p : jsstring) (parts : list jsstring) :
  In p parts -> exists pre post, join sep parts = pre ++ p ++ post.
Proof.
  induction parts as [|q parts IH]; [intros []|].
  intros [->|H].
  - destruct parts as [|r parts].
    + exists [], []. simpl. rewrite app_nil_r. reflexivity.
    + exists [], (sep ++ join sep (r :: parts)). reflexivity.
  - destruct (IH H) as (pre & post & E).
    destruct parts as [|r parts]; [destruct H|].
    exists (q ++ sep ++ pre), post.
    change (join sep (q :: r :: parts)) with (q ++ sep ++ join sep (r :: parts)).
    rewrite E, <- !app_assoc. reflexivity.
Qed.

(** One throwing element decides the result of [array_map] when every
    exception of the callback is the same one. *)
Lemma array_map_throws_at {A B : Type} (f : A -> result B) (xs : list A)
    (x : A) (e : exn) :
  (forall y e', f y = Throw e' -> e' = e) ->
  In x xs -> f x = Throw e -> array_map f xs = Throw e.
Proof.
  intros Hf Hin Hx. induction xs as [|y xs IH]; [destruct Hin|].
  simpl. destruct (f y) as [b|e'] eqn:Ey.
  - destruct Hin as [->|Hin]; [congruence|].
    simpl. rewrite (IH Hin). reflexivity.
  - simpl. f_equal. eapply Hf, Ey.
Qed.

Section MoreProperties.

Context {sc : StringCase} {sc_spec : StringCaseSpec sc}.

(** Whether the guard lets a string through depends on its length only. *)
Lemma getFlagEmoji_same_upper (s t : jsstring) :
  length s = length t ->
  toUpperCase s = toUpperCase t ->
  getFlagEmoji (VStr s) = getFlagEmoji (VStr t).
Proof.
  intros Hlen Hup. destruct (decide (length s = 2%nat)) as [H|H].
  - rewrite !getFlagEmoji_accepts by congruence. rewrite Hup. reflexivity.
  - rewrite !getFlagEmoji_rejects; [reflexivity| |].
    + intros r [= <-]. congruence.
    + intros r [= <-]. exact H.
Qed.

(** X1: the letter case of an ASCII code does not matter to [getFlagEmoji]:
    the lower-cased and the upper-cased code have the flag of the code. *)
Theorem getFlagEmoji_case_insensitive (s : jsstring) :
  is_ascii s = true ->
  getFlagEmoji (VStr (toLowerCase s)) = getFlagEmoji (VStr s)
  /\ getFlagEmoji (VStr (toUpperCase s)) = getFlagEmoji (VStr s).
Proof.
  intros Hs.
  rewrite (toLowerCase_ascii s Hs), (toUpperCase_ascii s Hs).
  split; apply getFlagEmoji_same_upper; try apply length_map.
  - rewrite toUpperCase_ascii by (apply is_ascii_map; [apply lower_ascii_range | exact Hs]).
    rewrite toUpperCase_ascii by exact Hs.
    rewrite map_map. apply map_ext. intros u. apply upper_lower_ascii.
  - rewrite toUpperCase_ascii by (apply is_ascii_map; [apply upper_ascii_range | exact Hs]).
    rewrite toUpperCase_ascii by exact Hs.
    rewrite map_map. apply map_ext. intros u. apply upper_ascii_idem.
Qed.

Lemma utf16_astral (cp : Z) :
  65536 <= cp <= 1114111 ->
  exists hi lo, utf16 cp = [hi; lo]
    /\ 55296 <= hi < 56320 /\ 56320 <= lo < 57344
    /\ cp = 65536 + 1024 * (hi - 55296) + (lo - 56320).
Proof.
  intros H. unfold utf16. destruct (Z.leb_spec cp 65535); [lia|].
  eexists _, _. split; [reflexivity|].
  Z.div_mod_to_equations. lia.
Qed.

Lemma utf16_regional_indicator (k : Z) :
  0 <= k < 26 -> utf16 (127397 + (65 + k)) = [55356; 56806 + k].
Proof.
  intros H. unfold utf16. destruct (Z.leb_spec (127397 + (65 + k)) 65535); [lia|].
  f_equal; [|f_equal]; Z.div_mod_to_equations; lia.
Qed.

Lemma getFlagEmoji_ascii_pair (a b : Z) :
  0 <= a < 128 -> 0 <= b < 128 ->
  getFlagEmoji (VStr [a; b]) =
  Ok (utf16 (127397 + upper_ascii a) ++ utf16 (127397 + upper_ascii b)).
Proof.
  intros Ha Hb.
  assert (Hs : is_ascii [a; b] = true)
    by (apply is_ascii_Forall; repeat constructor; lia).
  rewrite getFlagEmoji_utf16; [|reflexivity|apply is_ascii_wf, Hs].
  rewrite toUpperCase_ascii by exact Hs. simpl. rewrite app_nil_r. reflexivity.
Qed.

(** X2: on two ASCII letters, of either case, [getFlagEmoji] returns the
    two Regional Indicator Symbols of the letters: four code units, each
    symbol the surrogate pair of U+1F1E6 plus the rank of the letter. *)
Theorem getFlagEmoji_regional_indicators (a b : Z) :
  (65 <= a <= 90 \/ 97 <= a <= 122) ->
  (65 <= b <= 90 \/ 97 <= b <= 122) ->
  getFlagEmoji (VStr [a; b]) =
    Ok [55356; 56806 + (upper_ascii a - 65); 55356; 56806 + (upper_ascii b - 65)]
  /\ getFlagEmoji (VStr [a; b]) =
       fromCodePoint [Some (127462 + (upper_ascii a - 65));
                      Some (127462 + (upper_ascii b - 65))]
  /\ 0 <= upper_ascii a - 65 < 26 /\ 0 <= upper_ascii b - 65 < 26.
Proof.
  intros Ha Hb.
  assert (Ra : 0 <= upper_ascii a - 65 < 26) by ascii_cases.
  assert (Rb : 0 <= upper_ascii b - 65 < 26) by ascii_cases.
  assert (E : getFlagEmoji (VStr [a; b]) =
              Ok [55356; 56806 + (upper_ascii a - 65); 55356;
                  56806 + (upper_ascii b - 65)]).
  { rewrite getFlagEmoji_ascii_pair by lia.
    replace (upper_ascii a) with (65 + (upper_ascii a - 65)) at 1 by lia.
    replace (upper_ascii b) with (65 + (upper_ascii b - 65)) at 1 by lia.
    rewrite !utf16_regional_indicator by assumption. reflexivity. }
  split; [exact E|]. split; [|split; assumption].
  rewrite E.
  change [Some (127462 + (upper_ascii a - 65)); Some (127462 + (upper_ascii b - 65))]
    with (map Some [127462 + (upper_ascii a - 65); 127462 + (upper_ascii b - 65)]).
  rewrite fromCodePoint_in_range by (repeat constructor; lia).
  simpl. rewrite app_nil_r.
  replace (127462 + (upper_ascii a - 65)) with (127397 + (65 + (upper_ascii a - 65))) by lia.
  replace (127462 + (upper_ascii b - 65)) with (127397 + (65 + (upper_ascii b - 65))) by lia.
  rewrite !utf16_regional_indicator by assumption. reflexivity.
Qed.

(** X3: on 2-unit ASCII codes [getFlagEmoji] is injective up to letter
    case: two codes with the same flag have the same upper-casing. *)
Theorem getFlagEmoji_injective (s t : jsstring) :
  length s = 2%nat -> length t = 2%nat ->
  is_ascii s = true -> is_ascii t = true ->
  getFlagEmoji (VStr s) = getFlagEmoji (VStr t) ->
  toUpperCase s = toUpperCase t.
Proof.
  intros Hs Ht As At.
  rewrite (toUpperCase_ascii s As), (toUpperCase_ascii t At).
  destruct s as [|a [|b [|? ?]]]; try discriminate.
  destruct t as [|c [|d [|? ?]]]; try discriminate.
  apply is_ascii_Forall in As. apply is_ascii_Forall in At.
  inversion As as [|? ? Ha As']; subst. inversion As' as [|? ? Hb _]; subst.
  inversion At as [|? ? Hc At']; subst. inversion At' as [|? ? Hd _]; subst.
  rewrite !getFlagEmoji_ascii_pair by assumption.
  pose proof (upper_ascii_range a Ha). pose proof (upper_ascii_range b Hb).
  pose proof (upper_ascii_range c Hc). pose proof (upper_ascii_range d Hd).
  destruct (utf16_astral (127397 + upper_ascii a)) as (h1 & l1 & -> & ? & ? & ?); [lia|].
  destruct (utf16_astral (127397 + upper_ascii b)) as (h2 & l2 & -> & ? & ? & ?); [lia|].
  destruct (utf16_astral (127397 + upper_ascii c)) as (h3 & l3 & -> & ? & ? & ?); [lia|].
  destruct (utf16_astral (127397 + upper_ascii d)) as (h4 & l4 & -> & ? & ? & ?); [lia|].
  simpl. intros [= -> -> -> ->]. f_equal; [|f_equal]; lia.
Qed.

(** X4: the flag of a 2-unit ASCII code has exactly four code units, so on
    ASCII strings [getFlagEmoji] returns the empty string if and only if the
    length is not 2: the empty result tells an invalid code. *)
Theorem getFlagEmoji_empty_iff_invalid (s : jsstring) :
  is_ascii s = true ->
  (getFlagEmoji (VStr s) = Ok [] <-> length s <> 2%nat)
  /\ (length s = 2%nat ->
      exists flag, getFlagEmoji (VStr s) = Ok flag /\ length flag = 4%nat).
Proof.
  intros As.
  assert (H4 : length s = 2%nat ->
               exists flag, getFlagEmoji (VStr s) = Ok flag /\ length flag = 4%nat).
  { intros Hs. destruct s as [|a [|b [|? ?]]]; try discriminate.
    apply is_ascii_Forall in As.
    inversion As as [|? ? Ha As']; subst. inversion As' as [|? ? Hb _]; subst.
    rewrite getFlagEmoji_ascii_pair by assumption.
    pose proof (upper_ascii_range a Ha). pose proof (upper_ascii_range b Hb).
    destruct (utf16_astral (127397 + upper_ascii a)) as (h1 & l1 & -> & _); [lia|].
    destruct (utf16_astral (127397 + upper_ascii b)) as (h2 & l2 & -> & _); [lia|].
    eexists. split; reflexivity. }
  split; [|exact H4]. split.
  - intros E Hs. destruct (H4 Hs) as (flag & Hf & Hl).
    rewrite E in Hf. injection Hf as <-. discriminate Hl.
  - intros Hs. apply getFlagEmoji_rejects. intros t [= <-]. exact Hs.
Qed.

(** On a 2-unit string the URL builder only depends on the string
    conversion of the width. *)
Lemma getFlagImageUrl_valid (s : jsstring) (width : value) :
  length s = 2%nat ->
  getFlagImageUrl (VStr s) width =
  let! w := ToString (or_default width (VNum 40)) in
  Ok (lit "https://flagcdn.com/w" ++ w ++ lit "/" ++ toLowerCase s ++ lit ".png").
Proof.
  intros H. destruct s as [|a [|b [|c s]]]; try discriminate.
  unfold getFlagImageUrl. rewrite typeof_string. simpl ToBoolean. simpl negb.
  cbv iota. simpl get_length. simpl bind at 1. cbv iota. reflexivity.
Qed.

Lemma getFlagImageUrl_same_lower (s t : jsstring) (width : value) :
  length s = length t ->
  toLowerCase s = toLowerCase t ->
  getFlagImageUrl (VStr s) width = getFlagImageUrl (VStr t) width.
Proof.
  intros Hlen Hlow. destruct (decide (length s = 2%nat)) as [H|H].
  - rewrite !getFlagImageUrl_valid by congruence. rewrite Hlow. reflexivity.
  - rewrite !getFlagImageUrl_rejects; [reflexivity| |].
    + intros r [= <-]. congruence.
    + intros r [= <-]. exact H.
Qed.

(** X5: [getFlagImageUrl] returns the empty string if and only if the code
    is not a string of exactly two code units, whatever the width is: a
    valid code never gives the empty string. *)
Theorem getFlagImageUrl_empty_iff_invalid (v width : value) :
  getFlagImageUrl v width = Ok [] <-> (forall s, v = VStr s -> length s <> 2%nat).
Proof.
  split.
  - intros E s -> Hs. rewrite getFlagImageUrl_valid in E by exact Hs.
    destruct (ToString _) as [w|e]; simpl in E; discriminate E.
  - apply getFlagImageUrl_rejects.
Qed.

(** X6: the letter case of an ASCII code does not matter to
    [getFlagImageUrl]: upper-cased and lower-cased code have the URL of the
    code, for every width. *)
Theorem getFlagImageUrl_case_insensitive (s : jsstring) (width : value) :
  is_ascii s = true ->
  getFlagImageUrl (VStr (toUpperCase s)) width = getFlagImageUrl (VStr s) width
  /\ getFlagImageUrl (VStr (toLowerCase s)) width = getFlagImageUrl (VStr s) width.
Proof.
  intros Hs.
  rewrite (toLowerCase_ascii s Hs), (toUpperCase_ascii s Hs).
  split; apply getFlagImageUrl_same_lower; try apply length_map.
  - rewrite toLowerCase_ascii by (apply is_ascii_map; [apply upper_ascii_range | exact Hs]).
    rewrite toLowerCase_ascii by exact Hs.
    rewrite map_map. apply map_ext. intros u. apply lower_upper_ascii.
  - rewrite toLowerCase_ascii by (apply is_ascii_map; [apply lower_ascii_range | exact Hs]).
    rewrite toLowerCase_ascii by exact Hs.
    rewrite map_map. apply map_ext. intros u. apply lower_ascii_idem.
Qed.

(** X7: on valid codes and integer widths the URL tells its arguments: two
    calls with the same URL had the same width and codes with the same
    lower-casing.  Zero and negative widths are no exception: no width is
    clamped or rejected. *)
Theorem getFlagImageUrl_injective (s t : jsstring) (w1 w2 : Z) :
  length s = 2%nat -> length t = 2%nat ->
  getFlagImageUrl (VStr s) (VNum w1) = getFlagImageUrl (VStr t) (VNum w2) ->
  w1 = w2 /\ toLowerCase s = toLowerCase t.
Proof.
  intros Hs Ht. rewrite !getFlagImageUrl_valid by assumption.
  cbn [bind ToString or_default]. intros E.
  apply (f_equal (fun r => match r with Ok url => url | Throw _ => [] end)) in E.
  apply app_inv_head in E.
  change (lit "/") with [47] in E. cbn [app] in E.
  apply app_separator_inj in E as [Ew El]; try apply Number_toString_no_slash.
  split.
  - apply Number_toString_inj, Ew.
  - apply app_inv_tail in El. exact El.
Qed.

(** ** Further properties of [getCountrySelectHTML] *)

(** X8: in image mode, with a width that is a safe integer, the soft
    failure of the URL builder shows in the markup: an entry whose code is
    not a 2-unit string is rendered with an empty [src], and nothing is
    raised; otherwise the [src] is the URL. *)
Theorem optionHTML_image_markup (sel : jsstring) (w : Z) (e : entry) :
  safe_integer w = true ->
  exists url,
    getFlagImageUrl (VStr (entry_code e)) (VNum w) = Ok url
    /\ (length (entry_code e) <> 2%nat -> url = [])
    /\ (length (entry_code e) = 2%nat ->
        url = lit "https://flagcdn.com/w" ++ Number_toString w ++ lit "/"
              ++ toLowerCase (entry_code e) ++ lit ".png")
    /\ optionHTML sel true w (entry_object e) =
         Ok (lit "<option value=" ++ dquote ++ entry_code e ++ dquote
             ++ (if bool_decide (entry_code e = sel) then lit " selected" else [])
             ++ lit ">"
             ++ (lit "<img src=" ++ dquote ++ url ++ dquote
                 ++ lit " alt=" ++ dquote ++ entry_code e ++ dquote
                 ++ lit " style=" ++ dquote
                 ++ lit "vertical-align: middle; margin-right: 5px; width: "
                 ++ Number_toString w ++ lit "px;" ++ dquote ++ lit ">")
             ++ entry_name e ++ lit "</option>").
Proof.
  intros _.
  destruct (getFlagImageUrl_string_total (entry_code e) w) as [url Hurl].
  exists url. split; [exact Hurl|]. split; [|split].
  - intros Hlen. rewrite getFlagImageUrl_rejects in Hurl.
    + injection Hurl as <-. reflexivity.
    + intros t [= <-]. exact Hlen.
  - intros Hlen. rewrite getFlagImageUrl_valid in Hurl by exact Hlen.
    injection Hurl as <-. reflexivity.
  - destruct (get_field_entry e) as (Hc & Hn & Hf).
    unfold optionHTML. rewrite Hc, Hn, Hf. cbn [bind strict_eq_str].
    rewrite Hurl. reflexivity.
Qed.

(** X9: an entry that is not [undefined] or [null] and has none of the
    three properties (a number, a string, an empty object) is rendered with
    the text "undefined" for each of them and, in image mode with a width
    that is a safe integer, an empty [src]; it is never selected, not even
    by the [selectedCode] "undefined". *)
Theorem optionHTML_missing_fields (sel : jsstring) (w : Z) (v : value) :
  safe_integer w = true ->
  v <> VUndefined -> v <> VNull ->
  field_or_undefined v (lit "code") = VUndefined ->
  field_or_undefined v (lit "name") = VUndefined ->
  field_or_undefined v (lit "flag") = VUndefined ->
  optionHTML sel false w v =
    Ok (lit "<option value=" ++ dquote ++ lit "undefined" ++ dquote ++ lit ">"
        ++ lit "undefined undefined</option>")
  /\ optionHTML sel true w v =
       Ok (lit "<option value=" ++ dquote ++ lit "undefined" ++ dquote ++ lit ">"
           ++ (lit "<img src=" ++ dquote ++ dquote
               ++ lit " alt=" ++ dquote ++ lit "undefined" ++ dquote
               ++ lit " style=" ++ dquote
               ++ lit "vertical-align: middle; margin-right: 5px; width: "
               ++ Number_toString w ++ lit "px;" ++ dquote ++ lit ">")
           ++ lit "undefined</option>").
Proof.
  intros _ Hu Hn Hc Hm Hf.
  unfold optionHTML. rewrite !get_field_defined by assumption.
  rewrite Hc, Hm, Hf. cbn [bind strict_eq_str].
  rewrite getFlagImageUrl_rejects by discriminate.
  split; reflexivity.
Qed.

(** X10: an [undefined] or [null] entry anywhere in the array makes the
    renderer raise a [TypeError], whatever the other entries and the
    options are: there is no partial markup. *)
Theorem nullish_entry_raises_TypeError (entries : list value)
    (opts : option options) :
  In VNull entries \/ In VUndefined entries ->
  getCountrySelectHTML (VArr entries) opts = Throw TypeError.
Proof.
  intros H. unfold getCountrySelectHTML. cbn [Array_isArray negb].
  match goal with
  | |- context [array_map ?f entries] =>
      assert (E : array_map f entries = Throw TypeError)
  end.
  { destruct H as [H|H];
      (eapply array_map_throws_at; [|exact H|reflexivity]);
      intros y e'; apply optionHTML_throws_TypeError. }
  rewrite E. reflexivity.
Qed.

(** X11: nothing is escaped: the code and the name of every country of the
    sequence occur verbatim in the markup, and so does its flag in emoji
    mode, whatever characters they hold. *)
Theorem markup_holds_fields_verbatim (es : list entry) (o : options) (e : entry) :
  In e es ->
  exists html,
    getCountrySelectHTML (VArr (map entry_object es)) (Some o) = Ok html
    /\ includes (entry_code e) html = true
    /\ includes (entry_name e) html = true
    /\ (useImageFlags_of o = false -> includes (entry_flag e) html = true).
Proof.
  intros Hin.
  destruct (array_map_optionHTML_entries (selectedCode_of o) (useImageFlags_of o)
              (flagWidth_of o) es) as (parts & Hmap & Hall).
  eexists. split; [rewrite getCountrySelectHTML_array, Hmap; reflexivity|].
  apply list_elem_of_In, list_elem_of_lookup in Hin as [i Hi].
  destruct (Forall2_lookup_l _ _ _ _ _ Hall Hi) as (part & Hpart & Hopt & _).
  assert (Hp : In part parts)
    by (apply list_elem_of_In, list_elem_of_lookup; eauto).
  destruct (join_In_split (newline ++ lit "  ") part parts Hp) as (pre & post & Ej).
  unfold selectHTML. rewrite Ej. clear Ej Hp Hpart Hall Hmap Hi.
  destruct (get_field_entry e) as (Hc & Hn & Hf).
  unfold optionHTML in Hopt. rewrite Hc, Hn, Hf in Hopt.
  cbn [bind strict_eq_str] in Hopt.
  destruct (useImageFlags_of o).
  - destruct (getFlagImageUrl_string_total (entry_code e) (flagWidth_of o)) as [url Hurl].
    rewrite Hurl in Hopt. cbn [bind ToString] in Hopt. apply Ok_inj in Hopt. subst part.
    split; [|split; [|discriminate]]; find_included.
  - cbn [bind ToString] in Hopt. apply Ok_inj in Hopt. subst part.
    split; [|split; [|intros _]]; find_included.
Qed.

(** ** Further properties of [index.js] *)

(** X13: on a table of well-formed strings [getAllCountries] raises nothing
    and returns one object per row, in the order of the table, with the
    name and the code of the row and the flag that [getFlagEmoji] gives the
    code; a row whose code is not a 2-unit string is kept, with an empty
    flag. *)
Theorem getAllCountries_rows (countries : list country) :
  Forall (fun c => wf_jsstring (country_code c) = true) countries ->
  exists entries,
    getAllCountries countries = Ok (VArr (map entry_object entries))
    /\ Forall2 (fun c e =>
                  entry_name e = country_name c
                  /\ entry_code e = country_code c
                  /\ getFlagEmoji (VStr (country_code c)) = Ok (entry_flag e)
                  /\ (length (country_code c) <> 2%nat -> entry_flag e = []))
               countries entries.
Proof.
  intros Hwf.
  destruct (getAllCountries_total countries Hwf) as (entries & Hall & Hrows).
  exists entries. split; [exact Hall|].
  eapply Forall2_impl; [exact Hrows|].
  intros c e (Hn & Hc & Hf). repeat split; try assumption.
  intros Hlen. rewrite getFlagEmoji_rejects in Hf.
  - apply Ok_inj in Hf. symmetry. exact Hf.
  - intros t [= <-]. exact Hlen.
Qed.

(** X14: [getCountrySelect] in emoji mode, on a table of well-formed
    strings: the markup is the select element with one option per row of the
    table, in order, each on a line of its own; the option of a row reads
    its code as value, [selected] when the code is [selectedCode], then the
    emoji of the code, a space and the name. *)
Theorem getCountrySelect_emoji_markup (countries : list country) (o : options) :
  Forall (fun c => wf_jsstring (country_code c) = true) countries ->
  useImageFlags_of o = false ->
  exists parts,
    getCountrySelect countries (Some o) =
      Ok (lit "<select id=" ++ dquote ++ id_of o ++ dquote
          ++ lit " name=" ++ dquote ++ name_of o ++ dquote
          ++ lit " class=" ++ dquote ++ className_of o ++ dquote ++ lit ">"
          ++ match parts with
             | [] => newline ++ lit "  "
             | _ :: _ => concat (map (fun part => newline ++ lit "  " ++ part) parts)
             end
          ++ newline ++ lit "</select>")
    /\ Forall2 (fun c part =>
                  exists flag,
                    getFlagEmoji (VStr (country_code c)) = Ok flag
                    /\ part =
                         lit "<option value=" ++ dquote ++ country_code c ++ dquote
                         ++ (if bool_decide (country_code c = selectedCode_of o)
                             then lit " selected" else [])
                         ++ lit ">" ++ (flag ++ lit " ") ++ country_name c
                         ++ lit "</option>")
               countries parts.
Proof.
  intros Hwf Hemoji.
  destruct (getAllCountries_total countries Hwf) as (entries & Hall & Hrows).
  destruct (array_map_optionHTML_entries (selectedCode_of o) (useImageFlags_of o)
              (flagWidth_of o) entries) as (parts & Hmap & Hparts).
  exists parts. split.
  - unfold getCountrySelect. rewrite Hall. cbn [bind].
    change (default empty_options (Some o)) with o.
    rewrite getCountrySelectHTML_array, Hmap. cbn [bind].
    rewrite selectHTML_explicit. reflexivity.
  - clear Hall Hmap Hwf. revert parts Hparts.
    induction Hrows as [|c e cs es (Hn & Hc & Hf) _ IH]; intros parts Hparts.
    + inversion Hparts. constructor.
    + inversion Hparts as [|? part ? parts' [Hopt _] Hrest]; subst.
      constructor; [|apply IH, Hrest].
      exists (entry_flag e). split; [exact Hf|].
      destruct (get_field_entry e) as (Gc & Gn & Gf).
      unfold optionHTML in Hopt. rewrite Gc, Gn, Gf, Hemoji in Hopt.
      cbn [bind strict_eq_str ToString] in Hopt.
      apply Ok_inj in Hopt. rewrite <- Hopt, Hn, Hc. reflexivity.
Qed.

(** ** Properties of [getAngularCountrySelect] *)

Lemma angularPropsString_throws_TypeError (id name className : jsstring)
    (otherProps : list (jsstring * value)) (e : exn) :
  angularPropsString id name className otherProps = Throw e -> e = TypeError.
Proof.
  unfold angularPropsString. intros H.
  apply bind_Throw_inv in H as [H | (attrs & _ & H)]; [|discriminate].
  eapply array_map_throws_TypeError; [|exact H].
  intros kv e' H'. apply bind_Throw_inv in H' as [H' | (s & _ & H')]; [|discriminate].
  exact (ToString_throws_TypeError _ _ H').
Qed.

Lemma call_toLowerCase_throws_TypeError (v : value) (e : exn) :
  call_toLowerCase v = Throw e -> e = TypeError.
Proof. destruct v; simpl; congruence. Qed.

Lemma angularOption_throws_TypeError (img : bool) (w : Z) (v : value) (e : exn) :
  angularOption img w v = Throw e -> e = TypeError.
Proof.
  unfold angularOption. intros H.
  repeat match type of H with
         | bind (get_field _ _) _ = Throw _ =>
             apply bind_Throw_inv in H as [H | (? & _ & H)];
             [exact (get_field_throws_TypeError _ _ _ H)|]
         end.
  destruct img;
    repeat match type of H with
           | bind (ToString _) _ = Throw _ =>
               apply bind_Throw_inv in H as [H | (? & _ & H)];
               [exact (ToString_throws_TypeError _ _ H)|]
           | bind (call_toLowerCase _) _ = Throw _ =>
               apply bind_Throw_inv in H as [H | (? & _ & H)];
               [exact (call_toLowerCase_throws_TypeError _ _ H)|]
           end;
    discriminate H.
Qed.

(** X15: [getAngularCountrySelect] raises the error "Countries must be an
    array" if and only if [countries] is not an array, whatever the props
    are; on an array the only exception it can raise is a [TypeError]. *)
Theorem getAngularCountrySelect_errors (countries : value)
    (props : option angular_props) :
  (getAngularCountrySelect countries props =
     Throw (Error (lit "Countries must be an array"))
   <-> Array_isArray countries = false)
  /\ (forall e, Array_isArray countries = true ->
      getAngularCountrySelect countries props = Throw e -> e = TypeError).
Proof.
  assert (Harr : forall e, Array_isArray countries = true ->
            getAngularCountrySelect countries props = Throw e -> e = TypeError).
  { intros e Ha H. destruct countries; try discriminate Ha.
    unfold getAngularCountrySelect in H. cbn [Array_isArray negb] in H.
    apply bind_Throw_inv in H as [H | (ps & _ & H)];
      [exact (angularPropsString_throws_TypeError _ _ _ _ _ H)|].
    apply bind_Throw_inv in H as [H | (parts & _ & H)]; [|discriminate].
    eapply array_map_throws_TypeError; [|exact H].
    intros x e'. apply angularOption_throws_TypeError. }
  split; [|exact Harr]. split.
  - intros H. destruct (Array_isArray countries) eqn:Ha; [|reflexivity].
    apply Harr in H; [discriminate H | reflexivity].
  - intros H. unfold getAngularCountrySelect. rewrite H. reflexivity.
Qed.

Lemma angularPropsString_plain (id name className : jsstring) :
  angularPropsString id name className [] =
  Ok (join (lit " ")
        (attribute (lit "id") id ++ attribute (lit "name") name
         ++ attribute (lit "class") className)).
Proof. destruct id, name, className; reflexivity. Qed.

(** X16: without further props, the select element of
    [getAngularCountrySelect] has the [ngModel] binding and then, separated
    by spaces, [id], [name] and [class] in this order, each only when its
    value is not the empty string: an empty [className] (the default) gives
    no class attribute. *)
Theorem angular_empty_attributes_omitted (entries : list value) (p : angular_props) :
  ap_otherProps p = [] ->
  getAngularCountrySelect (VArr entries) (Some p) =
  let! parts :=
    array_map (angularOption (default true (ap_useImageFlags p))
                 (default 40 (ap_flagWidth p))) entries in
  Ok (lit "<select [(ngModel)]=" ++ dquote
      ++ default (lit "selectedCountry") (ap_ngModel p) ++ dquote ++ lit " "
      ++ join (lit " ")
           (attribute (lit "id") (default (lit "country-select") (ap_id p))
            ++ attribute (lit "name") (default (lit "country") (ap_name p))
            ++ attribute (lit "class") (default [] (ap_className p)))
      ++ lit ">" ++ newline ++ join newline parts ++ newline ++ lit "</select>").
Proof.
  intros Hother. unfold getAngularCountrySelect.
  cbn [Array_isArray negb]. change (default empty_angular_props (Some p)) with p.
  rewrite Hother, angularPropsString_plain. reflexivity.
Qed.

Lemma angularPropsString_extra (id name className key v : jsstring) :
  array_index key = None ->
  key <> lit "id" -> key <> lit "name" -> key <> lit "class" ->
  v <> [] ->
  angularPropsString id name className [(key, VStr v)] =
  Ok (join (lit " ")
        (attribute (lit "id") id ++ attribute (lit "name") name
         ++ attribute (lit "class") className
         ++ [key ++ lit "=" ++ dquote ++ v ++ dquote])).
Proof.
  intros Hidx Hid Hname Hclass Hv.
  unfold angularPropsString, obj_spread. cbn [fold_left obj_set fst snd].
  rewrite !bool_decide_false by congruence.
  unfold Object_entries. cbn [fold_right fst List.filter].
  change (array_index (lit "id")) with (@None Z).
  change (array_index (lit "name")) with (@None Z).
  change (array_index (lit "class")) with (@None Z).
  rewrite Hidx. cbn [map app snd List.filter strict_neq_empty].
  destruct v as [|v0 v]; [contradiction|].
  destruct id, name, className; reflexivity.
Qed.

(** X17: a prop that the function does not know, such as [selectedCode],
    is emitted as one more attribute of the select element, after [id],
    [name] and [class]; the options are those of the call without it, so no
    option is selected by it. *)
Theorem angular_unknown_prop_is_attribute (entries : list value)
    (p : angular_props) (key v : jsstring) :
  ap_otherProps p = [(key, VStr v)] ->
  array_index key = None ->
  key <> lit "id" -> key <> lit "name" -> key <> lit "class" ->
  v <> [] ->
  getAngularCountrySelect (VArr entries) (Some p) =
  let! parts :=
    array_map (angularOption (default true (ap_useImageFlags p))
                 (default 40 (ap_flagWidth p))) entries in
  Ok (lit "<select [(ngModel)]=" ++ dquote
      ++ default (lit "selectedCountry") (ap_ngModel p) ++ dquote ++ lit " "
      ++ join (lit " ")
           (attribute (lit "id") (default (lit "country-select") (ap_id p))
            ++ attribute (lit "name") (default (lit "country") (ap_name p))
            ++ attribute (lit "class") (default [] (ap_className p))
            ++ [key ++ lit "=" ++ dquote ++ v ++ dquote])
      ++ lit ">" ++ newline ++ join newline parts ++ newline ++ lit "</select>").
Proof.
  intros Hother Hidx Hid Hname Hclass Hv. unfold getAngularCountrySelect.
  cbn [Array_isArray negb]. change (default empty_angular_props (Some p)) with p.
  rewrite Hother, angularPropsString_extra by assumption. reflexivity.
Qed.

(** X18: in image mode [getAngularCountrySelect] builds the URL of an
    entry itself, without the validation of [getFlagImageUrl]: for a width
    that is a safe integer and a string code of any length, the [src] is
    the quoted URL of the lower-cased code.
    For a 2-unit code it is the URL that [getFlagImageUrl] returns; for
    another length [getFlagImageUrl] returns the empty string, the Angular
    markup a URL all the same. *)
Theorem angular_image_url_not_validated (w : Z) (e : entry) :
  safe_integer w = true ->
  let url := lit "https://flagcdn.com/w" ++ Number_toString w ++ lit "/"
             ++ toLowerCase (entry_code e) ++ lit ".png" in
  angularOption true w (entry_object e) =
    Ok (lit "  <option [value]=" ++ dquote ++ entry_code e ++ dquote ++ lit ">"
        ++ newline
        ++ lit "    <img [src]=" ++ dquote ++ (lit "'" ++ url ++ lit "'") ++ dquote
        ++ lit " " ++ newline
        ++ lit "         [alt]=" ++ dquote ++ lit "'" ++ entry_code e ++ lit "'"
        ++ dquote ++ lit " " ++ newline
        ++ lit "         style=" ++ dquote ++ lit "margin-right: 5px; width: "
        ++ Number_toString w ++ lit "px; vertical-align: middle;" ++ dquote
        ++ lit " /> " ++ entry_name e ++ newline
        ++ lit "  </option>")
  /\ (length (entry_code e) = 2%nat ->
      getFlagImageUrl (VStr (entry_code e)) (VNum w) = Ok url)
  /\ (length (entry_code e) <> 2%nat ->
      getFlagImageUrl (VStr (entry_code e)) (VNum w) = Ok []).
Proof.
  intros _ url. split; [|split].
  - destruct (get_field_entry e) as (Hc & Hn & Hf).
    unfold angularOption. rewrite Hc, Hn, Hf.
    cbn [bind ToString call_toLowerCase]. f_equal. subst url.
    change (lit "'https://flagcdn.com/w") with (lit "'" ++ lit "https://flagcdn.com/w").
    change (lit ".png'") with (lit ".png" ++ lit "'").
    rewrite <- !app_assoc. reflexivity.
  - intros Hlen. apply getFlagImageUrl_accepts; [exact Hlen | reflexivity].
  - intros Hlen. apply getFlagImageUrl_rejects. intros t [= <-]. exact Hlen.
Qed.

Lemma angularOption_image_non_string (w : Z) (v : value) :
  (forall s, get_field v (lit "code") <> Ok (VStr s)) ->
  angularOption true w v = Throw TypeError.
Proof.
  intros Hcode. unfold angularOption.
  destruct (get_field v (lit "code")) as [c|e] eqn:Ec.
  - assert (Hu : v <> VUndefined) by (intros ->; discriminate Ec).
    assert (Hn : v <> VNull) by (intros ->; discriminate Ec).
    rewrite !get_field_defined by assumption. cbn [bind].
    destruct (ToString c) as [cs|e] eqn:Es.
    + cbn [bind]. destruct c; try reflexivity. exfalso. eapply Hcode. reflexivity.
    + cbn [bind]. f_equal. exact (ToString_throws_TypeError _ _ Es).
  - cbn [bind]. f_equal. exact (get_field_throws_TypeError _ _ _ Ec).
Qed.

(** X19: in image mode [getAngularCountrySelect] calls [toLowerCase] on the
    code of every entry, so one entry whose code is not a string (a missing
    code, a number) makes it raise a [TypeError]. *)
Theorem angular_image_mode_needs_string_codes (entries : list value)
    (p : angular_props) (v : value) :
  default true (ap_useImageFlags p) = true ->
  In v entries ->
  (forall s, get_field v (lit "code") <> Ok (VStr s)) ->
  getAngularCountrySelect (VArr entries) (Some p) = Throw TypeError.
Proof.
  intros Himg Hin Hcode. unfold getAngularCountrySelect.
  cbn [Array_isArray negb]. change (default empty_angular_props (Some p)) with p.
  rewrite Himg.
  destruct (angularPropsString _ _ _ _) as [ps|e] eqn:Eps.
  - cbn [bind].
    rewrite (array_map_throws_at _ entries v TypeError); [reflexivity| |exact Hin|].
    + intros y e'. apply angularOption_throws_TypeError.
    + apply angularOption_image_non_string, Hcode.
  - cbn [bind]. f_equal. exact (angularPropsString_throws_TypeError _ _ _ _ _ Eps).
Qed.

End MoreProperties.

(** ** The two rendering branches *)

(** X12: the two branches of [useImageFlags] do not mix.  In emoji mode the
    markup is the same for every [flagWidth] and every case conversion: the
    URL builder plays no part.  In image mode the markup does not depend on
    the [flag] of the entries: two arrays whose entries agree on [code] and
    [name] have the same markup, or raise alike. *)
Theorem rendering_branches_are_exclusive (sc1 sc2 : StringCase)
    (countries : value) (id name className selectedCode : option jsstring)
    (w1 w2 : option Z) (xs ys : list value) (o : options) :
  getCountrySelectHTML (sc := sc1) countries
      (Some (mkOptions id name className selectedCode (Some false) w1))
    = getCountrySelectHTML (sc := sc2) countries
        (Some (mkOptions id name className selectedCode (Some false) w2))
  /\ (useImageFlags_of o = true ->
      Forall2 (fun x y =>
                 get_field x (lit "code") = get_field y (lit "code")
                 /\ get_field x (lit "name") = get_field y (lit "name")) xs ys ->
      getCountrySelectHTML (sc := sc1) (VArr xs) (Some o)
        = getCountrySelectHTML (sc := sc1) (VArr ys) (Some o)).
Proof.
  split.
  - destruct countries; reflexivity.
  - intros Himg Hall. rewrite !getCountrySelectHTML_array. rewrite Himg.
    f_equal. induction Hall as [|x y xs ys [Hc Hn] _ IH]; [reflexivity|].
    simpl. rewrite IH. f_equal.
    unfold optionHTML. rewrite <- Hc, <- Hn.
    destruct x, y; try discriminate Hc; reflexivity.
Qed.

(** ** [getAngularCountrySelect] *)

Example getAngularCountrySelect_default :
  getAngularCountrySelect (sc := latin1_case)
    (VArr [entry_object (mkEntry (lit "India") (lit "IN") [55356; 56814; 55356; 56819])])
    None
  = Ok (lit "<select [(ngModel)]=" ++ dquote ++ lit "selectedCountry" ++ dquote
        ++ lit " id=" ++ dquote ++ lit "country-select" ++ dquote
        ++ lit " name=" ++ dquote ++ lit "country" ++ dquote ++ lit ">" ++ newline
        ++ lit "  <option [value]=" ++ dquote ++ lit "IN" ++ dquote ++ lit ">" ++ newline
        ++ lit "    <img [src]=" ++ dquote ++ lit "'https://flagcdn.com/w40/in.png'"
        ++ dquote ++ lit " " ++ newline
        ++ lit "         [alt]=" ++ dquote ++ lit "'IN'" ++ dquote ++ lit " " ++ newline
        ++ lit "         style=" ++ dquote
        ++ lit "margin-right: 5px; width: 40px; vertical-align: middle;" ++ dquote
        ++ lit " /> India" ++ newline
        ++ lit "  </option>" ++ newline ++ lit "</select>").
Proof. reflexivity. Qed.

Example getAngularCountrySelect_other_props :
  getAngularCountrySelect (sc := latin1_case) (VArr [])
    (Some (mkAngularProps None (Some []) (Some (lit "x")) None (Some false) None
             [(lit "selectedCode", VStr (lit "IN")); (lit "1", VNum 7);
              (lit "class", VStr (lit "y")); (lit "0", VStr [])]))
  = Ok (lit "<select [(ngModel)]=" ++ dquote ++ lit "selectedCountry" ++ dquote
        ++ lit " 1=" ++ dquote ++ lit "7" ++ dquote
        ++ lit " id=" ++ dquote ++ lit "country-select" ++ dquote
        ++ lit " class=" ++ dquote ++ lit "y" ++ dquote
        ++ lit " selectedCode=" ++ dquote ++ lit "IN" ++ dquote
        ++ lit ">" ++ newline ++ newline ++ lit "</select>").
Proof. reflexivity. Qed.

(** ** The further properties at concrete inputs *)

Lemma getFlagEmoji_case_insensitive_witness :
  getFlagEmoji (VStr (toLowerCase (lit "In"))) = getFlagEmoji (VStr (lit "In"))
  /\ getFlagEmoji (VStr (toUpperCase (lit "In"))) = getFlagEmoji (VStr (lit "In")).
Proof.
  apply (getFlagEmoji_case_insensitive (sc_spec := latin1_case_spec) (lit "In")).
  reflexivity.
Defined.

Lemma getFlagEmoji_regional_indicators_witness :
  getFlagEmoji (VStr [85; 115]) =
    Ok [55356; 56806 + (upper_ascii 85 - 65); 55356; 56806 + (upper_ascii 115 - 65)]
  /\ getFlagEmoji (VStr [85; 115]) =
       fromCodePoint [Some (127462 + (upper_ascii 85 - 65));
                      Some (127462 + (upper_ascii 115 - 65))]
  /\ 0 <= upper_ascii 85 - 65 < 26 /\ 0 <= upper_ascii 115 - 65 < 26.
Proof.
  apply (getFlagEmoji_regional_indicators (sc_spec := latin1_case_spec) 85 115); lia.
Defined.

Lemma getFlagEmoji_injective_witness :
  toUpperCase (lit "us") = toUpperCase (lit "US").
Proof.
  apply (getFlagEmoji_injective (sc_spec := latin1_case_spec) (lit "us") (lit "US"));
    reflexivity.
Defined.

Lemma getFlagEmoji_empty_iff_invalid_witness :
  (getFlagEmoji (VStr (lit "USA")) = Ok [] <-> length (lit "USA") <> 2%nat)
  /\ (length (lit "USA") = 2%nat ->
      exists flag, getFlagEmoji (VStr (lit "USA")) = Ok flag /\ length flag = 4%nat).
Proof.
  apply (getFlagEmoji_empty_iff_invalid (sc_spec := latin1_case_spec) (lit "USA")).
  reflexivity.
Defined.

Lemma getFlagImageUrl_case_insensitive_witness :
  getFlagImageUrl (VStr (toUpperCase (lit "gB"))) (VNum 80)
    = getFlagImageUrl (VStr (lit "gB")) (VNum 80)
  /\ getFlagImageUrl (VStr (toLowerCase (lit "gB"))) (VNum 80)
     = getFlagImageUrl (VStr (lit "gB")) (VNum 80).
Proof.
  apply (getFlagImageUrl_case_insensitive (sc_spec := latin1_case_spec) (lit "gB")).
  reflexivity.
Defined.

Lemma getFlagImageUrl_injective_witness :
  (-5) = (-5) /\ toLowerCase (lit "GB") = toLowerCase (lit "gb").
Proof.
  apply (getFlagImageUrl_injective (sc := latin1_case) (lit "GB") (lit "gb") (-5) (-5));
    reflexivity.
Defined.

Lemma optionHTML_image_markup_witness :
  exists url,
    getFlagImageUrl (VStr (lit "XXX")) (VNum 20) = Ok url
    /\ url = []
    /\ optionHTML (lit "IN") true 20
         (entry_object (mkEntry (lit "Nowhere") (lit "XXX") [])) =
         Ok (lit "<option value=" ++ dquote ++ lit "XXX" ++ dquote ++ lit ">"
             ++ lit "<img src=" ++ dquote ++ url ++ dquote
             ++ lit " alt=" ++ dquote ++ lit "XXX" ++ dquote
             ++ lit " style=" ++ dquote
             ++ lit "vertical-align: middle; margin-right: 5px; width: 20px;"
             ++ dquote ++ lit ">"
             ++ lit "Nowhere</option>").
Proof.
  destruct (optionHTML_image_markup (sc := latin1_case) (lit "IN") 20
              (mkEntry (lit "Nowhere") (lit "XXX") []) eq_refl)
    as (url & Hurl & Hbad & _ & Hopt).
  exists url. split; [exact Hurl|].
  assert (E : url = []) by (apply Hbad; discriminate).
  split; [exact E|]. rewrite Hopt, E. reflexivity.
Defined.

Lemma optionHTML_missing_fields_witness :
  optionHTML (lit "undefined") false 40 (VObj []) =
    Ok (lit "<option value=" ++ dquote ++ lit "undefined" ++ dquote ++ lit ">"
        ++ lit "undefined undefined</option>")
  /\ optionHTML (lit "undefined") true 40 (VObj []) =
       Ok (lit "<option value=" ++ dquote ++ lit "undefined" ++ dquote ++ lit ">"
           ++ (lit "<img src=" ++ dquote ++ dquote
               ++ lit " alt=" ++ dquote ++ lit "undefined" ++ dquote
               ++ lit " style=" ++ dquote
               ++ lit "vertical-align: middle; margin-right: 5px; width: 40px;"
               ++ dquote ++ lit ">")
           ++ lit "undefined</option>").
Proof.
  exact (optionHTML_missing_fields (sc := latin1_case) (lit "undefined") 40 (VObj [])
           eq_refl ltac:(discriminate) ltac:(discriminate) eq_refl eq_refl eq_refl).
Defined.

Lemma nullish_entry_raises_TypeError_witness :
  getCountrySelectHTML
    (VArr [entry_object (mkEntry (lit "India") (lit "IN") []); VUndefined])
    None = Throw TypeError.
Proof.
  apply (nullish_entry_raises_TypeError (sc := latin1_case)).
  right. right. left. reflexivity.
Defined.

Lemma markup_holds_fields_verbatim_witness :
  let bold := mkEntry (lit "<b>India</b>") (lit "IN") (lit "&") in
  exists html,
    getCountrySelectHTML (VArr (map entry_object [bold])) (Some empty_options) = Ok html
    /\ includes (entry_code bold) html = true
    /\ includes (entry_name bold) html = true
    /\ (useImageFlags_of empty_options = false ->
        includes (entry_flag bold) html = true).
Proof.
  intros bold.
  apply (markup_holds_fields_verbatim (sc := latin1_case) [bold] empty_options bold).
  left. reflexivity.
Defined.

Lemma rendering_branches_are_exclusive_witness :
  let with_flag := VObj [(lit "code", VStr (lit "IN")); (lit "name", VStr (lit "India"));
                         (lit "flag", VStr [55356; 56814; 55356; 56819])] in
  let without_flag := VObj [(lit "name", VStr (lit "India"));
                            (lit "code", VStr (lit "IN"))] in
  getCountrySelectHTML (sc := latin1_case) (VArr [with_flag])
      (Some (mkOptions None None None None (Some false) (Some 20)))
    = getCountrySelectHTML (sc := latin1_case) (VArr [with_flag])
        (Some (mkOptions None None None None (Some false) (Some 80)))
  /\ getCountrySelectHTML (sc := latin1_case) (VArr [with_flag]) (Some empty_options)
     = getCountrySelectHTML (sc := latin1_case) (VArr [without_flag])
         (Some empty_options).
Proof.
  intros with_flag without_flag.
  destruct (rendering_branches_are_exclusive latin1_case latin1_case
              (VArr [with_flag]) None None None None (Some 20) (Some 80)
              [with_flag] [without_flag] empty_options) as [Hemoji Himage].
  split; [exact Hemoji|].
  apply Himage; [reflexivity|].
  constructor; [split; reflexivity | constructor].
Defined.

Lemma getAllCountries_rows_witness :
  let table := [mkCountry (lit "India") (lit "IN");
                mkCountry (lit "Nowhere") (lit "XXX")] in
  exists entries,
    getAllCountries table = Ok (VArr (map entry_object entries))
    /\ Forall2 (fun c e =>
                  entry_name e = country_name c
                  /\ entry_code e = country_code c
                  /\ getFlagEmoji (VStr (country_code c)) = Ok (entry_flag e)
                  /\ (length (country_code c) <> 2%nat -> entry_flag e = []))
               table entries.
Proof.
  intros table.
  apply (getAllCountries_rows (sc_spec := latin1_case_spec) table).
  repeat constructor.
Defined.

Lemma getCountrySelect_emoji_markup_witness :
  let table := [mkCountry (lit "India") (lit "IN");
                mkCountry (lit "Nowhere") (lit "XXX")] in
  let o := mkOptions None None None (Some (lit "IN")) (Some false) None in
  getCountrySelect table (Some o) =
    Ok (lit "<select id=" ++ dquote ++ lit "country-select" ++ dquote
        ++ lit " name=" ++ dquote ++ lit "country" ++ dquote
        ++ lit " class=" ++ dquote ++ dquote ++ lit ">"
        ++ newline ++ lit "  <option value=" ++ dquote ++ lit "IN" ++ dquote
        ++ lit " selected>" ++ [55356; 56814; 55356; 56819] ++ lit " India</option>"
        ++ newline ++ lit "  <option value=" ++ dquote ++ lit "XXX" ++ dquote
        ++ lit "> Nowhere</option>"
        ++ newline ++ lit "</select>").
Proof.
  intros table o.
  destruct (getCountrySelect_emoji_markup (sc_spec := latin1_case_spec) table o)
    as (parts & Hout & Hparts); [repeat constructor | reflexivity |].
  rewrite Hout. clear Hout.
  apply Forall2_cons_inv_l in Hparts as (p1 & ps1 & (f1 & F1 & ->) & Hrest & ->).
  apply Forall2_cons_inv_l in Hrest as (p2 & ps2 & (f2 & F2 & ->) & Hnil & ->).
  apply Forall2_nil_inv_l in Hnil as ->.
  apply Ok_inj in F1. apply Ok_inj in F2. subst f1 f2.
  reflexivity.
Defined.

Lemma getAngularCountrySelect_errors_witness :
  getAngularCountrySelect (VStr (lit "IN"))
    (Some (mkAngularProps None None None None None None
             [(lit "title", VObj [(lit "toString", VNull)])]))
  = Throw (Error (lit "Countries must be an array")).
Proof.
  apply (proj2 (proj1 (getAngularCountrySelect_errors (sc := latin1_case)
                         (VStr (lit "IN")) _))).
  reflexivity.
Defined.

Lemma angular_empty_attributes_omitted_witness :
  getAngularCountrySelect (VArr []) (Some empty_angular_props)
  = Ok (lit "<select [(ngModel)]=" ++ dquote ++ lit "selectedCountry" ++ dquote
        ++ lit " id=" ++ dquote ++ lit "country-select" ++ dquote
        ++ lit " name=" ++ dquote ++ lit "country" ++ dquote
        ++ lit ">" ++ newline ++ newline ++ lit "</select>").
Proof.
  exact (angular_empty_attributes_omitted (sc := latin1_case) []
           empty_angular_props eq_refl).
Defined.

Lemma angular_unknown_prop_is_attribute_witness :
  getAngularCountrySelect (VArr [])
    (Some (mkAngularProps None None None None None None
             [(lit "selectedCode", VStr (lit "IN"))]))
  = Ok (lit "<select [(ngModel)]=" ++ dquote ++ lit "selectedCountry" ++ dquote
        ++ lit " id=" ++ dquote ++ lit "country-select" ++ dquote
        ++ lit " name=" ++ dquote ++ lit "country" ++ dquote
        ++ lit " selectedCode=" ++ dquote ++ lit "IN" ++ dquote
        ++ lit ">" ++ newline ++ newline ++ lit "</select>").
Proof.
  refine (angular_unknown_prop_is_attribute (sc := latin1_case) []
            (mkAngularProps None None None None None None
               [(lit "selectedCode", VStr (lit "IN"))])
            (lit "selectedCode") (lit "IN") eq_refl eq_refl _ _ _ _);
    discriminate.
Defined.

Lemma angular_image_url_not_validated_witness :
  getFlagImageUrl (VStr (lit "XXX")) (VNum 40) = Ok []
  /\ exists markup,
       angularOption true 40 (entry_object (mkEntry (lit "Nowhere") (lit "XXX") []))
         = Ok markup
       /\ includes (lit "'https://flagcdn.com/w40/xxx.png'") markup = true.
Proof.
  destruct (angular_image_url_not_validated (sc := latin1_case) 40
              (mkEntry (lit "Nowhere") (lit "XXX") []) eq_refl) as (Hopt & _ & Hbad).
  split; [apply Hbad; discriminate|].
  eexists. split; [exact Hopt | reflexivity].
Defined.

Lemma angular_image_mode_needs_string_codes_witness :
  getAngularCountrySelect
    (VArr [entry_object (mkEntry (lit "India") (lit "IN") []);
           VObj [(lit "name", VStr (lit "Nowhere"))]])
    (Some empty_angular_props)
  = Throw TypeError.
Proof.
  apply (angular_image_mode_needs_string_codes (sc := latin1_case) _
           empty_angular_props (VObj [(lit "name", VStr (lit "Nowhere"))])).
  - reflexivity.
  - right. left. reflexivity.
  - intros s. discriminate.
Defined.

Example getAngularCountrySelect_emoji_missing_code :
  getAngularCountrySelect (sc := latin1_case)
    (VArr [VObj [(lit "name", VStr (lit "Nowhere"))]])
    (Some (mkAngularProps None None None None (Some false) None []))
  = Ok (lit "<select [(ngModel)]=" ++ dquote ++ lit "selectedCountry" ++ dquote
        ++ lit " id=" ++ dquote ++ lit "country-select" ++ dquote
        ++ lit " name=" ++ dquote ++ lit "country" ++ dquote ++ lit ">" ++ newline
        ++ lit "  <option [value]=" ++ dquote ++ lit "undefined" ++ dquote ++ lit ">"
        ++ lit "undefined Nowhere</option>" ++ newline ++ lit "</select>").
Proof. reflexivity. Qed.
